(** * codeintel-dead-code-finder: the dispatcher of [main.py]

    The program runs up to three external analysers (flake8, pylint and
    pyre) as child processes over a project directory, keeps the text each
    one prints, and joins the texts under headers.

    The embedding is shallow.  Python strings are [string]; lists are
    [list]; the insertion-ordered dictionary [results] is an association
    list.  Effects are kept in a small monad [proc]: a computation yields
    the chronological list of the effects it performed and either a value,
    a raised exception, or a [sys.exit].  The operating system is a record
    of oracles ([Env]) that every function receives. *)

From Stdlib Require Import String Ascii List Bool Arith ZArith Lia.
From ExtLib Require Import Structures.Monad.
Import ListNotations.
Import MonadNotation.
Local Open Scope list_scope.
Local Open Scope string_scope.
Local Open Scope monad_scope.

(** ** Characters that a Rocq string literal cannot hold directly *)

Definition LF : ascii := ascii_of_nat 10.
Definition DQUOTE : ascii := ascii_of_nat 34.
Definition BACKSLASH : ascii := ascii_of_nat 92.

Definition nl : string := String LF "".
Definition dq : string := String DQUOTE "".

(** ** Python built-ins used by the program *)

Module Py.

(** [sep.join(items)] *)
Definition join (sep : string) (items : list string) : string :=
  String.concat sep items.

(** Truth value of a list: [if ignore:] *)
Definition truthy_list {A} (l : list A) : bool :=
  match l with [] => false | _ :: _ => true end.

(** [x in xs] for a list of strings *)
Definition contains (x : string) (xs : list string) : bool :=
  existsb (String.eqb x) xs.

(** [str.upper] on the ASCII range (the dictionary keys it is applied to
    are the three tool names, all ASCII). *)
Definition upper_char (c : ascii) : ascii :=
  let n := nat_of_ascii c in
  if andb (Nat.leb 97 n) (Nat.leb n 122) then ascii_of_nat (n - 32) else c.

Fixpoint upper (s : string) : string :=
  match s with
  | EmptyString => EmptyString
  | String c r => String (upper_char c) (upper r)
  end.

(** [repr] of a list of strings whose members need no escaping, as the
    f-string [{valid_dependencies}] renders it. *)
Definition repr_list (l : list string) : string :=
  "[" ++ join ", " (map (fun s => "'" ++ s ++ "'") l) ++ "]".

(** [os.path.join(a, b)] of [posixpath] for two components *)
Definition ends_with_slash (a : string) : bool :=
  match get (String.length a - 1) a with
  | Some c => Ascii.eqb c "/"
  | None => false
  end.

Definition os_path_join (a b : string) : string :=
  match b with
  | String "/" _ => b
  | _ => if orb (String.eqb a "") (ends_with_slash a) then a ++ b
         else a ++ "/" ++ b
  end.

(** An ordered dictionary from strings to strings.  [results[k] = v]
    overwrites in place when the key is present and appends otherwise. *)
Definition dict := list (string * string).

Fixpoint setitem (d : dict) (k v : string) : dict :=
  match d with
  | [] => [(k, v)]
  | (k', v') :: r =>
      if String.eqb k' k then (k', v) :: r else (k', v') :: setitem r k v
  end.

Definition keys (d : dict) : list string := map fst d.

End Py.

(** ** Effects *)

(** The two exception classes the handlers tell apart.  [msg] is [str(e)].
    Only subclasses of [Exception] are modelled. *)
Inductive exn : Type :=
| FileNotFoundError (msg : string)
| OtherException (msg : string).

Definition str_exn (e : exn) : string :=
  match e with
  | FileNotFoundError m => m
  | OtherException m => m
  end.

Inductive level : Type := INFO | ERROR.

(** [subprocess.CompletedProcess] *)
Record CompletedProcess : Type := {
  returncode : Z;
  stdout : string;
  stderr : string
}.

(** What the program does to the outside world, in order. *)
Inductive event : Type :=
| Log (lvl : level) (msg : string)
| Subprocess (command : list string) (cwd : option string)
| TempDirCreated (path : string)
| TempDirRemoved (path : string)
| FileWritten (path content : string)
| Stdout (text : string)
| StdoutLost (text : string).

Inductive outcome (A : Type) : Type :=
| Return (a : A)
| Raised (e : exn)
| SysExit (code : Z).
Arguments Return {A} a.
Arguments Raised {A} e.
Arguments SysExit {A} code.

Definition proc (A : Type) : Type := (list event * outcome A)%type.

Definition proc_ret {A} (a : A) : proc A := ([], Return a).

Definition proc_bind {A B} (m : proc A) (f : A -> proc B) : proc B :=
  match m with
  | (t, Return a) => let (t', o) := f a in ((t ++ t')%list, o)
  | (t, Raised e) => (t, Raised e)
  | (t, SysExit c) => (t, SysExit c)
  end.

#[export] Instance Monad_proc : Monad proc :=
  {| ret := @proc_ret; bind := @proc_bind |}.

Definition emit (e : event) : proc unit := ([e], Return tt).
Definition raise {A} (e : exn) : proc A := ([], Raised e).
Definition sys_exit {A} (code : Z) : proc A := ([], SysExit code).

(** [try: body / except FileNotFoundError: h1 / except Exception as e: h2].
    [sys.exit] is not an [Exception] and passes through. *)
Definition try_except {A} (body : proc A)
    (on_not_found : proc A) (on_exception : exn -> proc A) : proc A :=
  match body with
  | (t, Raised (FileNotFoundError _)) =>
      let (t', o) := on_not_found in ((t ++ t')%list, o)
  | (t, Raised e) =>
      let (t', o) := on_exception e in ((t ++ t')%list, o)
  | other => other
  end.

(** [try: body / except Exception as e: h] *)
Definition try_except_any {A} (body : proc A) (on_exception : exn -> proc A)
  : proc A :=
  match body with
  | (t, Raised e) => let (t', o) := on_exception e in ((t ++ t')%list, o)
  | other => other
  end.

Definition trace {A} (m : proc A) : list event := fst m.
Definition result {A} (m : proc A) : outcome A := snd m.



(** ** The operating system *)

Inductive launch : Type :=
| Completed (p : CompletedProcess)
| LaunchError (e : exn).

(** What becomes of a text given to [print]: it reaches standard output;
    or the write raises; or [print] returns with the text still buffered
    and the flush at interpreter exit fails. *)
Inductive stdout_answer : Type :=
| Written
| WriteRaises (e : exn)
| LostAtExit.

Record Env : Type := {
  (** [os.path.isdir] *)
  isdir : string -> bool;
  (** [subprocess.run(command, capture_output=True, text=True,
      check=False, cwd=...)]: the child ran to completion, or it could not
      be started. *)
  spawn : list string -> option string -> launch;
  (** [tempfile.TemporaryDirectory()]: the fresh directory, or the error *)
  mkdtemp : exn + string;
  (** [open(path, "w")] followed by [write(content)]: [None] on success *)
  write_file : string -> string -> option exn;
  (** writing a text to [sys.stdout] *)
  stdout_write : string -> stdout_answer
}.

Definition logging_error (msg : string) : proc unit := emit (Log ERROR msg).
Definition logging_info (msg : string) : proc unit := emit (Log INFO msg).

Definition subprocess_run (env : Env) (command : list string)
    (cwd : option string) : proc CompletedProcess :=
  emit (Subprocess command cwd) ;;
  match spawn env command cwd with
  | Completed p => ret p
  | LaunchError e => raise e
  end.

(** [with open(path, "w") as f: f.write(content)] *)
Definition open_write (env : Env) (path content : string) : proc unit :=
  match write_file env path content with
  | None => emit (FileWritten path content)
  | Some e => raise e
  end.

(** [with tempfile.TemporaryDirectory() as d: body d]; the directory is
    removed on every way out of the body. *)
Definition with_temporary_directory {A} (env : Env)
    (body : string -> proc A) : proc A :=
  match mkdtemp env with
  | inl e => raise e
  | inr d =>
      let (t, o) := (emit (TempDirCreated d) ;; body d) in
      ((t ++ [TempDirRemoved d])%list, o)
  end.

(** [print(text)]: the text and a newline go to standard output.  The call
    is not inside a [try] in [main]. *)
Definition print (env : Env) (text : string) : proc unit :=
  match stdout_write env (text ++ nl) with
  | Written => emit (Stdout (text ++ nl))
  | WriteRaises e => raise e
  | LostAtExit => emit (StdoutLost (text ++ nl))
  end.

(** ** The command-line interface ([setup_argparse]) *)

Record Args : Type := {
  project_path : string;
  dependencies : list string;
  output_file : option string;
  ignore : list string
}.

Definition default_dependencies : list string :=
  ["flake8"; "pylint"; "pyre-check"].

(** What the command line carries for [--dependencies]: [nargs="+"] takes
    one name or more, and the default applies when the option is absent. *)
Inductive cli_dependencies : Type :=
| DependenciesAbsent
| DependenciesGiven (first : string) (more : list string).

Definition parsed_dependencies (c : cli_dependencies) : list string :=
  match c with
  | DependenciesAbsent => default_dependencies
  | DependenciesGiven first more => first :: more
  end.

(** ** The three tool runners *)

Definition flake8_command (project_path : string) (ignore : list string)
  : list string :=
  let command := ["flake8"; project_path] in
  if Py.truthy_list ignore
  then (command ++ ["--exclude"; Py.join "," ignore])%list
  else command.

Definition run_flake8 (env : Env) (project_path : string)
    (ignore : list string) : proc string :=
  try_except
    (result <- subprocess_run env (flake8_command project_path ignore) None ;;
     ret (stdout result))
    (logging_error
       "Flake8 is not installed. Please install it using 'pip install flake8'." ;;
     ret "")
    (fun e =>
       logging_error ("An error occurred while running flake8: " ++ str_exn e) ;;
       ret "").

Definition pylint_command (project_path : string) (ignore : list string)
  : list string :=
  let command := ["pylint"; project_path] in
  if Py.truthy_list ignore
  then let ignore_str := Py.join "," ignore in
       (command ++ ["--ignore"; ignore_str])%list
  else command.

Definition run_pylint (env : Env) (project_path : string)
    (ignore : list string) : proc string :=
  try_except
    (result <- subprocess_run env (pylint_command project_path ignore) None ;;
     ret (stdout result))
    (logging_error
       "Pylint is not installed. Please install it using 'pip install pylint'." ;;
     ret "")
    (fun e =>
       logging_error ("An error occurred while running pylint: " ++ str_exn e) ;;
       ret "").

(** [lambda x: '"' + x + '"'] *)
Definition quote_entry (x : string) : string := dq ++ x ++ dq.

(** The text the f-string of [run_pyre] writes to the configuration file. *)
Definition pyre_configuration (project_path : string) (ignore : list string)
  : string :=
  "{" ++ nl ++
  "  " ++ dq ++ "ignore" ++ dq ++ ": ["
       ++ Py.join ", " (map quote_entry ignore) ++ "]," ++ nl ++
  "  " ++ dq ++ "typeshed" ++ dq ++ ": null," ++ nl ++
  "  " ++ dq ++ "use_buck" ++ dq ++ ": false," ++ nl ++
  "  " ++ dq ++ "source_directories" ++ dq ++ ": ["
       ++ dq ++ project_path ++ dq ++ "]" ++ nl ++
  "}".

Definition pyre_command (project_path pyre_config_path : string)
  : list string :=
  ["pyre"; "check"; "--source-directory"; project_path;
   "--configuration"; pyre_config_path].

Definition run_pyre (env : Env) (project_path : string)
    (ignore : list string) : proc string :=
  try_except
    (with_temporary_directory env (fun temp_dir =>
       let pyre_config_path :=
         Py.os_path_join temp_dir ".pyre_configuration.local" in
       open_write env pyre_config_path
         (pyre_configuration project_path ignore) ;;
       let command := pyre_command project_path pyre_config_path in
       result <- subprocess_run env command (Some project_path) ;;
       ret (stdout result)))
    (logging_error
       "Pyre-check is not installed. Please install it using 'pip install pyre-check'." ;;
     ret "")
    (fun e =>
       logging_error
         ("An error occurred while running pyre-check: " ++ str_exn e) ;;
       ret "").

(** ** [main] *)

Definition valid_dependencies : list string :=
  ["flake8"; "pylint"; "pyre-check"].

(** The loop [for dep in dependencies: if dep not in valid_dependencies] *)
Fixpoint check_dependencies (deps : list string) : proc unit :=
  match deps with
  | [] => ret tt
  | dep :: rest =>
      if negb (Py.contains dep valid_dependencies)
      then logging_error
             ("Error: '" ++ dep ++ "' is not a valid dependency. "
              ++ "Valid options are: " ++ Py.repr_list valid_dependencies) ;;
           sys_exit 1
      else check_dependencies rest
  end.

(** Input validation, lines 142 to 151. *)
Definition validate (env : Env) (args : Args) : proc unit :=
  (if negb (isdir env (project_path args))
   then logging_error
          ("Error: '" ++ project_path args ++ "' is not a valid directory.") ;;
        sys_exit 1
   else ret tt) ;;
  check_dependencies (dependencies args).

(** The three guarded calls that fill [results], lines 153 to 163. *)
Definition dispatch (env : Env) (args : Args) : proc Py.dict :=
  let results : Py.dict := [] in
  results <-
    (if Py.contains "flake8" (dependencies args)
     then logging_info "Running flake8..." ;;
          r <- run_flake8 env (project_path args) (ignore args) ;;
          ret (Py.setitem results "flake8" r)
     else ret results) ;;
  results <-
    (if Py.contains "pylint" (dependencies args)
     then logging_info "Running pylint..." ;;
          r <- run_pylint env (project_path args) (ignore args) ;;
          ret (Py.setitem results "pylint" r)
     else ret results) ;;
  results <-
    (if Py.contains "pyre-check" (dependencies args)
     then logging_info "Running pyre-check..." ;;
          r <- run_pyre env (project_path args) (ignore args) ;;
          ret (Py.setitem results "pyre-check" r)
     else ret results) ;;
  ret results.

(** The loop over [results.items()], lines 165 to 167. *)
Definition render (results : Py.dict) : string :=
  fold_left
    (fun output item =>
       let '(tool, result) := item in
       output ++ "--- " ++ Py.upper tool ++ " ---" ++ nl
              ++ result ++ nl ++ nl)
    results "".

(** Writing the report out, lines 169 to 177.  [if output_file:] holds
    for a string that is neither [None] nor empty. *)
Definition deliver (env : Env) (args : Args) (output : string) : proc unit :=
  match output_file args with
  | Some (String _ _ as output_file) =>
      try_except_any
        (open_write env output_file output ;;
         logging_info ("Results saved to '" ++ output_file ++ "'"))
        (fun e =>
           logging_error
             ("Error writing to file '" ++ output_file ++ "': " ++ str_exn e))
  | _ => print env output
  end.

(** [main] from line 137 on, once [parser.parse_args()] has returned
    [args].  The parser itself, which ends the process on a usage error
    or on [-h], is not part of the model. *)
Definition main (env : Env) (args : Args) : proc unit :=
  validate env args ;;
  results <- dispatch env args ;;
  let output := render results in
  deliver env args output.

(** * Vocabulary of the statements *)

(** The three analysers, in the order [main] tries them. *)
Inductive tool : Type := Flake8 | Pylint | PyreCheck.

Definition canonical : list tool := [Flake8; Pylint; PyreCheck].

Definition tool_name (t : tool) : string :=
  match t with
  | Flake8 => "flake8"
  | Pylint => "pylint"
  | PyreCheck => "pyre-check"
  end.

Definition run_tool (env : Env) (args : Args) (t : tool) : proc string :=
  match t with
  | Flake8 => run_flake8 env (project_path args) (ignore args)
  | Pylint => run_pylint env (project_path args) (ignore args)
  | PyreCheck => run_pyre env (project_path args) (ignore args)
  end.

(** The tools a request selects, in canonical order. *)
Definition selected (deps : list string) : list tool :=
  filter (fun t => Py.contains (tool_name t) deps) canonical.

(** Path of the configuration file inside the temporary directory. *)
Definition pyre_config_path (temp_dir : string) : string :=
  Py.os_path_join temp_dir ".pyre_configuration.local".

(** What the operating system answers when the body of a runner's [try]
    is executed: for pyre the temporary directory and the configuration
    file come before the child process. *)
Definition attempt (env : Env) (args : Args) (t : tool) : launch :=
  match t with
  | Flake8 =>
      spawn env (flake8_command (project_path args) (ignore args)) None
  | Pylint =>
      spawn env (pylint_command (project_path args) (ignore args)) None
  | PyreCheck =>
      match mkdtemp env with
      | inl e => LaunchError e
      | inr d =>
          match write_file env (pyre_config_path d)
                  (pyre_configuration (project_path args) (ignore args)) with
          | Some e => LaunchError e
          | None =>
              spawn env (pyre_command (project_path args) (pyre_config_path d))
                (Some (project_path args))
          end
      end
  end.

Definition captured (l : launch) : string :=
  match l with
  | Completed p => stdout p
  | LaunchError _ => ""
  end.

(** The request passed input validation. *)
Definition validated (env : Env) (args : Args) : Prop :=
  isdir env (project_path args) = true /\
  forall dep, In dep (dependencies args) -> In dep valid_dependencies.

Definition is_subprocess (e : event) : bool :=
  match e with Subprocess _ _ => true | _ => false end.

Definition is_stdout (e : event) : bool :=
  match e with Stdout _ => true | _ => false end.

Definition is_file_written (e : event) : bool :=
  match e with FileWritten _ _ => true | _ => false end.

(** The child processes a computation asked for, oldest first. *)
Definition invocations (t : list event) : list event := filter is_subprocess t.

(** The program named by an invocation. *)
Definition binary (e : event) : string :=
  match e with
  | Subprocess (b :: _) _ => b
  | _ => ""
  end.

Definition tool_binary (t : tool) : string :=
  match t with
  | Flake8 => "flake8"
  | Pylint => "pylint"
  | PyreCheck => "pyre"
  end.

(** One section of the report. *)
Definition section (item : string * string) : string :=
  "--- " ++ Py.upper (fst item) ++ " ---" ++ nl ++ snd item ++ nl ++ nl.

Definition flatten (l : list string) : string := fold_right append "" l.

(** [sub] occurs in [s]. *)
Definition mentions (s sub : string) : Prop :=
  exists a b, s = a ++ sub ++ b.


(** What a runner's [except] clauses log for a given answer. *)
Definition handler_log (not_installed failed : string) (l : launch)
  : list event :=
  match l with
  | Completed _ => []
  | LaunchError (FileNotFoundError _) => [Log ERROR not_installed]
  | LaunchError (OtherException m) => [Log ERROR (failed ++ m)]
  end.

Definition not_installed_message (t : tool) : string :=
  match t with
  | Flake8 =>
      "Flake8 is not installed. Please install it using 'pip install flake8'."
  | Pylint =>
      "Pylint is not installed. Please install it using 'pip install pylint'."
  | PyreCheck =>
      "Pyre-check is not installed. Please install it using 'pip install pyre-check'."
  end.

Definition failed_message (t : tool) : string :=
  "An error occurred while running " ++ tool_name t ++ ": ".

(** Events of [run_pyre] up to the point where the [try] body is left. *)
Definition pyre_body_trace (env : Env) (p : string) (ig : list string)
  : list event :=
  match mkdtemp env with
  | inl _ => []
  | inr d =>
      match write_file env (pyre_config_path d) (pyre_configuration p ig) with
      | Some _ => [TempDirCreated d; TempDirRemoved d]
      | None =>
          [TempDirCreated d;
           FileWritten (pyre_config_path d) (pyre_configuration p ig);
           Subprocess (pyre_command p (pyre_config_path d)) (Some p);
           TempDirRemoved d]
      end
  end.

Definition announce (t : tool) : event :=
  Log INFO ("Running " ++ tool_name t ++ "...").

Definition tool_events (env : Env) (args : Args) (t : tool) : list event :=
  announce t :: trace (run_tool env args t).

Definition tool_entry (env : Env) (args : Args) (t : tool)
  : string * string :=
  (tool_name t, captured (attempt env args t)).

(** The report [main] builds when validation passes. *)
Definition report (env : Env) (args : Args) : string :=
  render (map (tool_entry env args) (selected (dependencies args))).

(** The child process a tool's runner asks for, if it gets that far. *)
Definition tool_invocation (env : Env) (args : Args) (t : tool)
  : list event :=
  match t with
  | Flake8 =>
      [Subprocess (flake8_command (project_path args) (ignore args)) None]
  | Pylint =>
      [Subprocess (pylint_command (project_path args) (ignore args)) None]
  | PyreCheck =>
      match mkdtemp env with
      | inl _ => []
      | inr d =>
          match write_file env (pyre_config_path d)
                  (pyre_configuration (project_path args) (ignore args)) with
          | Some _ => []
          | None =>
              [Subprocess
                 (pyre_command (project_path args) (pyre_config_path d))
                 (Some (project_path args))]
          end
      end
  end.

(** The same request with another [--dependencies] list. *)
Definition with_dependencies (args : Args) (deps : list string) : Args :=
  {| project_path := project_path args;
     dependencies := deps;
     output_file := output_file args;
     ignore := ignore args |}.

(** A request for [run_pyre] alone. *)
Definition pyre_request (p : string) (ig : list string) : Args :=
  {| project_path := p; dependencies := ["pyre-check"];
     output_file := None; ignore := ig |}.

(** An answer of the operating system with the exit code blanked out. *)
Definition erase_status (l : launch) : launch :=
  match l with
  | Completed p =>
      Completed {| returncode := 0; stdout := stdout p; stderr := stderr p |}
  | LaunchError e => LaunchError e
  end.

(** Two systems that differ at most in the exit codes of the children. *)
Definition same_up_to_status (env env' : Env) : Prop :=
  (forall p, isdir env p = isdir env' p) /\
  mkdtemp env = mkdtemp env' /\
  (forall p c, write_file env p c = write_file env' p c) /\
  (forall t, stdout_write env t = stdout_write env' t) /\
  (forall c d, erase_status (spawn env c d) = erase_status (spawn env' c d)).

(** One line of the configuration document. *)
Definition field (key value : string) : string :=
  "  " ++ dq ++ key ++ dq ++ ": " ++ value.

(** The events of [deliver], spelled out. *)
Definition delivery (env : Env) (args : Args) (output : string)
  : list event :=
  match output_file args with
  | Some (String c f) =>
      match write_file env (String c f) output with
      | None =>
          [FileWritten (String c f) output;
           Log INFO ("Results saved to '" ++ String c f ++ "'")]
      | Some e =>
          [Log ERROR
             ("Error writing to file '" ++ String c f ++ "': " ++ str_exn e)]
      end
  | _ =>
      match stdout_write env (output ++ nl) with
      | Written => [Stdout (output ++ nl)]
      | WriteRaises _ => []
      | LostAtExit => [StdoutLost (output ++ nl)]
      end
  end.

(** ** Sample systems and requests *)

Definition sample_env : Env := {|
  isdir := fun p => String.eqb p "/proj";
  spawn := fun command cwd =>
    match command with
    | "flake8" :: _ =>
        Completed {| returncode := 1; stdout := "a.py:1:1: F401" ++ nl;
                     stderr := "" |}
    | "pylint" :: _ => LaunchError (FileNotFoundError "pylint")
    | _ => Completed {| returncode := 0; stdout := "No type errors found";
                        stderr := "" |}
    end;
  mkdtemp := inr "/tmp/tmpk3";
  write_file := fun path content =>
    if String.eqb path "/ro/report.txt"
    then Some (OtherException "Permission denied")
    else None;
  stdout_write := fun _ => Written
|}.



Definition sample_args : Args := {|
  project_path := "/proj";
  dependencies := ["pyre-check"; "flake8"; "pylint"; "flake8"];
  output_file := None;
  ignore := ["build"; "dist"]
|}.

Definition sample_bad_args : Args := {|
  project_path := "/proj";
  dependencies := ["flake8"; "mypy"];
  output_file := None;
  ignore := []
|}.


Definition sample_empty_args : Args := {|
  project_path := "/proj";
  dependencies := [];
  output_file := None;
  ignore := []
|}.

(** An exclusion entry that closes its own string and the list, and opens
    a field of its own: [a"], "strict": ["b]. *)
Definition sample_injection : string :=
  "a" ++ dq ++ "], " ++ dq ++ "strict" ++ dq ++ ": [" ++ dq ++ "b".

(** A target path with a backslash: [C:\x]. *)
Definition sample_backslash_path : string :=
  "C:" ++ String BACKSLASH "x".



(** An exclusion entry with an escaped backslash: [a\\b]. *)
Definition sample_escaped_backslash : string :=
  "a" ++ String BACKSLASH (String BACKSLASH "b").

(** * The reader of the configuration document

    The file [run_pyre] writes is read by pyre as a JSON document.  The
    reader is not part of the program; it is modelled here after the JSON
    grammar (RFC 8259) so that what the written text means can be stated.
    Two limits of the model: numbers, which the configuration never holds,
    are not read, and a [\u] escape is read only when it denotes a
    character of the byte range that [string] covers. *)

Module Json.

#[local] Set Warnings "-register-all".

Inductive token : Type :=
| LBrace | RBrace | LBracket | RBracket | Colon | Comma
| Str (s : string)
| Null | True | False.

Inductive value : Type :=
| VNull
| VBool (b : bool)
| VString (s : string)
| VArray (items : list value)
| VObject (members : list (string * value)).

Definition is_ws (c : ascii) : bool :=
  let n := nat_of_ascii c in
  (Nat.eqb n 32 || Nat.eqb n 9 || Nat.eqb n 10 || Nat.eqb n 13)%bool.

Definition is_control (c : ascii) : bool := Nat.ltb (nat_of_ascii c) 32.

Definition hex_value (c : ascii) : option nat :=
  let n := nat_of_ascii c in
  if (Nat.leb 48 n && Nat.leb n 57)%bool then Some (n - 48)
  else if (Nat.leb 65 n && Nat.leb n 70)%bool then Some (n - 55)
  else if (Nat.leb 97 n && Nat.leb n 102)%bool then Some (n - 87)
  else None.

(** The character a [\uXXXX] escape denotes. *)
Definition unicode (h1 h2 h3 h4 : ascii) : option ascii :=
  match hex_value h1 with
  | None => None
  | Some a =>
    match hex_value h2 with
    | None => None
    | Some b =>
      match hex_value h3 with
      | None => None
      | Some c =>
        match hex_value h4 with
        | None => None
        | Some d =>
            let code := 4096 * a + 256 * b + 16 * c + d in
            if Nat.ltb code 256 then Some (ascii_of_nat code) else None
        end
      end
    end
  end.

(** The character a two-character escape denotes. *)
Definition simple_escape (x : ascii) : option ascii :=
  if Ascii.eqb x DQUOTE then Some DQUOTE
  else if Ascii.eqb x BACKSLASH then Some BACKSLASH
  else if Ascii.eqb x "/" then Some "/"%char
  else if Ascii.eqb x "b" then Some (ascii_of_nat 8)
  else if Ascii.eqb x "f" then Some (ascii_of_nat 12)
  else if Ascii.eqb x "n" then Some (ascii_of_nat 10)
  else if Ascii.eqb x "r" then Some (ascii_of_nat 13)
  else if Ascii.eqb x "t" then Some (ascii_of_nat 9)
  else None.

(** The lexer is outside a string, or inside one whose characters so far
    are [acc]. *)
Inductive mode : Type :=
| Top
| InString (acc : string).

Definition push (acc : string) (c : ascii) : string := acc ++ String c "".

Definition emit_token (t : token) (rest : option (list token))
  : option (list token) :=
  match rest with
  | Some ts => Some (t :: ts)
  | None => None
  end.

Fixpoint lex (m : mode) (s : string) {struct s} : option (list token) :=
  match s with
  | EmptyString =>
      match m with
      | Top => Some []
      | InString _ => None
      end
  | String c r =>
      match m with
      | Top =>
          if is_ws c then lex Top r
          else if Ascii.eqb c "{" then emit_token LBrace (lex Top r)
          else if Ascii.eqb c "}" then emit_token RBrace (lex Top r)
          else if Ascii.eqb c "[" then emit_token LBracket (lex Top r)
          else if Ascii.eqb c "]" then emit_token RBracket (lex Top r)
          else if Ascii.eqb c ":" then emit_token Colon (lex Top r)
          else if Ascii.eqb c "," then emit_token Comma (lex Top r)
          else if Ascii.eqb c DQUOTE then lex (InString "") r
          else if Ascii.eqb c "n" then
            match r with
            | String c1 (String c2 (String c3 r')) =>
                if (Ascii.eqb c1 "u" && Ascii.eqb c2 "l"
                    && Ascii.eqb c3 "l")%bool
                then emit_token Null (lex Top r') else None
            | _ => None
            end
          else if Ascii.eqb c "t" then
            match r with
            | String c1 (String c2 (String c3 r')) =>
                if (Ascii.eqb c1 "r" && Ascii.eqb c2 "u"
                    && Ascii.eqb c3 "e")%bool
                then emit_token True (lex Top r') else None
            | _ => None
            end
          else if Ascii.eqb c "f" then
            match r with
            | String c1 (String c2 (String c3 (String c4 r'))) =>
                if (Ascii.eqb c1 "a" && Ascii.eqb c2 "l"
                    && Ascii.eqb c3 "s" && Ascii.eqb c4 "e")%bool
                then emit_token False (lex Top r') else None
            | _ => None
            end
          else None
      | InString acc =>
          if Ascii.eqb c DQUOTE then emit_token (Str acc) (lex Top r)
          else if Ascii.eqb c BACKSLASH then
            match r with
            | EmptyString => None
            | String x r' =>
                if Ascii.eqb x "u" then
                  match r' with
                  | String h1 (String h2 (String h3 (String h4 r''))) =>
                      match unicode h1 h2 h3 h4 with
                      | Some y => lex (InString (push acc y)) r''
                      | None => None
                      end
                  | _ => None
                  end
                else
                  match simple_escape x with
                  | Some y => lex (InString (push acc y)) r'
                  | None => None
                  end
            end
          else if is_control c then None
          else lex (InString (push acc c)) r
      end
  end.

(** Recursive descent over the tokens.  [fuel] bounds the depth of the
    calls; the number of tokens plus one is always enough. *)
Fixpoint parse_value (fuel : nat) (ts : list token)
  : option (value * list token) :=
  match fuel with
  | O => None
  | S n =>
      match ts with
      | Null :: r => Some (VNull, r)
      | True :: r => Some (VBool true, r)
      | False :: r => Some (VBool false, r)
      | Str s :: r => Some (VString s, r)
      | LBracket :: RBracket :: r => Some (VArray [], r)
      | LBracket :: r =>
          match parse_value n r with
          | Some (v, r1) =>
              match parse_items n r1 with
              | Some (vs, r2) => Some (VArray (v :: vs), r2)
              | None => None
              end
          | None => None
          end
      | LBrace :: RBrace :: r => Some (VObject [], r)
      | LBrace :: Str k :: Colon :: r =>
          match parse_value n r with
          | Some (v, r1) =>
              match parse_members n r1 with
              | Some (ms, r2) => Some (VObject ((k, v) :: ms), r2)
              | None => None
              end
          | None => None
          end
      | _ => None
      end
  end

with parse_items (fuel : nat) (ts : list token)
  : option (list value * list token) :=
  match fuel with
  | O => None
  | S n =>
      match ts with
      | RBracket :: r => Some ([], r)
      | Comma :: r =>
          match parse_value n r with
          | Some (v, r1) =>
              match parse_items n r1 with
              | Some (vs, r2) => Some (v :: vs, r2)
              | None => None
              end
          | None => None
          end
      | _ => None
      end
  end

with parse_members (fuel : nat) (ts : list token)
  : option (list (string * value) * list token) :=
  match fuel with
  | O => None
  | S n =>
      match ts with
      | RBrace :: r => Some ([], r)
      | Comma :: Str k :: Colon :: r =>
          match parse_value n r with
          | Some (v, r1) =>
              match parse_members n r1 with
              | Some (ms, r2) => Some ((k, v) :: ms, r2)
              | None => None
              end
          | None => None
          end
      | _ => None
      end
  end.

(** Reading a whole document: every token must be used. *)
Definition read (s : string) : option value :=
  match lex Top s with
  | None => None
  | Some ts =>
      match parse_value (S (List.length ts)) ts with
      | Some (v, []) => Some v
      | _ => None
      end
  end.

(** The tokens of a value, commas between the items. *)
Definition separated (l : list (list token)) : list token :=
  match l with
  | [] => []
  | x :: r => (x ++ flat_map (fun y => Comma :: y) r)%list
  end.

Fixpoint tokens_of (v : value) : list token :=
  match v with
  | VNull => [Null]
  | VBool true => [True]
  | VBool false => [False]
  | VString s => [Str s]
  | VArray items =>
      (LBracket :: separated (map tokens_of items) ++ [RBracket])%list
  | VObject members =>
      (LBrace
         :: separated
              (map (fun m => Str (fst m) :: Colon :: tokens_of (snd m))
                 members)
         ++ [RBrace])%list
  end.

(** A character that stands for itself inside a string literal. *)
Definition plain_char (c : ascii) : bool :=
  negb (Ascii.eqb c DQUOTE || Ascii.eqb c BACKSLASH || is_control c)%bool.

Fixpoint plain (s : string) : bool :=
  match s with
  | EmptyString => true
  | String c r => (plain_char c && plain r)%bool
  end.

End Json.

(** [c] occurs in [s]. *)
Fixpoint has_char (c : ascii) (s : string) : bool :=
  match s with
  | EmptyString => false
  | String x r => (Ascii.eqb x c || has_char c r)%bool
  end.

(** The configuration [run_pyre] means to write. *)
Definition intended_configuration (project_path : string)
    (ignore : list string) : Json.value :=
  Json.VObject
    [("ignore", Json.VArray (map Json.VString ignore));
     ("typeshed", Json.VNull);
     ("use_buck", Json.VBool false);
     ("source_directories", Json.VArray [Json.VString project_path])].

(** ** Statements about the reader *)

(** The statement proved by induction on the length of what is left of an
    entry: [acc] has been read, [p] is the part of the entry that was
    consumed but not yet produced, [w] is the rest of the entry. *)
Definition aligned_upto (n : nat) : Prop :=
  forall w, String.length w <= n ->
  forall acc p tail ts,
    has_char DQUOTE p = false ->
    Json.lex (Json.InString acc) (w ++ String DQUOTE tail)
      = Some (Json.Str (acc ++ p ++ w) :: ts) ->
    p = "" /\ Json.plain w = true /\ Json.lex Json.Top tail = Some ts.

Definition item_tokens (v : Json.value) : list Json.token :=
  Json.Comma :: Json.tokens_of v.

Definition member_tokens (m : string * Json.value) : list Json.token :=
  Json.Comma :: Json.Str (fst m) :: Json.Colon :: Json.tokens_of (snd m).

Definition parse_sound_upto (n : nat) : Prop :=
  (forall ts v r,
     Json.parse_value n ts = Some (v, r) ->
     ts = (Json.tokens_of v ++ r)%list) /\
  (forall ts vs r,
     Json.parse_items n ts = Some (vs, r) ->
     ts = (flat_map item_tokens vs ++ Json.RBracket :: r)%list) /\
  (forall ts ms r,
     Json.parse_members n ts = Some (ms, r) ->
     ts = (flat_map member_tokens ms ++ Json.RBrace :: r)%list).

(** Tokens put in front of what the lexer makes of the rest. *)
Definition emit_tokens (front : list Json.token)
    (rest : option (list Json.token)) : option (list Json.token) :=
  match rest with
  | Some ts => Some (front ++ ts)%list
  | None => None
  end.

(** What the injected entry makes of the document: five fields. *)
Definition injected_configuration : Json.value :=
  Json.VObject
    [("ignore", Json.VArray [Json.VString "a"]);
     ("strict", Json.VArray [Json.VString "b"]);
     ("typeshed", Json.VNull);
     ("use_buck", Json.VBool false);
     ("source_directories", Json.VArray [Json.VString "/proj"])].

(** ** Vocabulary of the further properties *)

Definition is_temp_dir_event (e : event) : bool :=
  match e with
  | TempDirCreated _ | TempDirRemoved _ => true
  | _ => false
  end.

Definition is_log (e : event) : bool :=
  match e with Log _ _ => true | _ => false end.

(** Two answers of the operating system that carry the same captured
    text, or the same error. *)
Definition same_stdout (l l' : launch) : Prop :=
  match l, l' with
  | Completed p, Completed p' => stdout p = stdout p'
  | LaunchError e, LaunchError e' => e = e'
  | _, _ => False
  end.

(** Two systems whose children differ at most in exit code and in what
    they write to standard error. *)
Definition same_children_output (env env' : Env) : Prop :=
  (forall p, isdir env p = isdir env' p) /\
  mkdtemp env = mkdtemp env' /\
  (forall p c, write_file env p c = write_file env' p c) /\
  (forall t, stdout_write env t = stdout_write env' t) /\
  (forall c d, same_stdout (spawn env c d) (spawn env' c d)).

(** The same request with another [--output_file]. *)
Definition with_output_file (args : Args) (o : option string) : Args :=
  {| project_path := project_path args;
     dependencies := dependencies args;
     output_file := o;
     ignore := ignore args |}.

(** An exclusion entry without a comma. *)
Definition comma_free (e : string) : Prop := has_char "," e = false.

(** [sample_env] with children that are noisy on standard error and end
    with other exit codes. *)
Definition sample_env_noisy : Env := {|
  isdir := isdir sample_env;
  spawn := fun command cwd =>
    match spawn sample_env command cwd with
    | Completed p =>
        Completed {| returncode := 3; stdout := stdout p;
                     stderr := "warning: deprecated option" |}
    | LaunchError e => LaunchError e
    end;
  mkdtemp := mkdtemp sample_env;
  write_file := write_file sample_env;
  stdout_write := stdout_write sample_env
|}.

(** A system without a usable temporary directory. *)
Definition sample_env_no_tmp : Env := {|
  isdir := isdir sample_env;
  spawn := spawn sample_env;
  mkdtemp := inl (FileNotFoundError "No usable temporary directory found");
  write_file := write_file sample_env;
  stdout_write := stdout_write sample_env
|}.

Definition is_info (e : event) : bool :=
  match e with Log INFO _ => true | _ => false end.

(** * Properties *)

(** ** Basic facts *)

Lemma contains_In x xs : Py.contains x xs = true <-> In x xs.
Proof.
  unfold Py.contains. rewrite existsb_exists. split.
  - intros [y [Hy He]]. apply String.eqb_eq in He. now subst.
  - intros H. exists x. split; [assumption | apply String.eqb_refl].
Qed.

Lemma contains_false x xs : Py.contains x xs = false <-> ~ In x xs.
Proof.
  rewrite <- contains_In. destruct (Py.contains x xs); split; intros; congruence.
Qed.

Lemma bind_trace_result {A B} (m : proc A) (f : A -> proc B) t a :
  m = (t, Return a) ->
  bind m f = ((t ++ trace (f a))%list, result (f a)).
Proof.
  intros ->. cbn. destruct (f a); reflexivity.
Qed.

Lemma bind_exit {A B} (m : proc A) (f : A -> proc B) t c :
  m = (t, SysExit c) -> bind m f = (t, SysExit c).
Proof. intros ->. reflexivity. Qed.

Lemma proc_eta {A} (m : proc A) : m = (trace m, result m).
Proof. destruct m; reflexivity. Qed.

(** *** The validation loop *)

Lemma check_dependencies_ok deps :
  (forall dep, In dep deps -> In dep valid_dependencies) ->
  check_dependencies deps = ([], Return tt).
Proof.
  induction deps as [|d r IH]; intros H; [reflexivity|].
  cbn [check_dependencies].
  assert (Hd : Py.contains d valid_dependencies = true)
    by (apply contains_In, H; now left).
  rewrite Hd. cbn [negb]. apply IH. intros x Hx. apply H. now right.
Qed.

Lemma check_dependencies_bad deps :
  (exists dep, In dep deps /\ ~ In dep valid_dependencies) ->
  exists msg, check_dependencies deps = ([Log ERROR msg], SysExit 1%Z).
Proof.
  induction deps as [|d r IH]; intros [x [Hin Hbad]]; [destruct Hin|].
  cbn [check_dependencies].
  destruct (Py.contains d valid_dependencies) eqn:Hd; cbn [negb].
  - apply IH. exists x. split; [|assumption].
    destruct Hin as [->|Hin]; [|assumption].
    exfalso. apply Hbad. now apply contains_In.
  - eexists. reflexivity.
Qed.

Lemma validate_ok env args :
  validated env args -> validate env args = ([], Return tt).
Proof.
  intros [Hdir Hdeps]. unfold validate. rewrite Hdir. cbn [negb].
  rewrite (check_dependencies_ok _ Hdeps). reflexivity.
Qed.

Lemma validate_bad env args :
  isdir env (project_path args) = false \/
  (exists dep, In dep (dependencies args) /\ ~ In dep valid_dependencies) ->
  exists msg, validate env args = ([Log ERROR msg], SysExit 1%Z).
Proof.
  intros H. unfold validate.
  destruct (isdir env (project_path args)) eqn:Hdir; cbn [negb].
  - destruct H as [H|H]; [discriminate|].
    destruct (check_dependencies_bad _ H) as [msg ->].
    exists msg. reflexivity.
  - eexists. reflexivity.
Qed.

(** *** The runners *)

Lemma run_flake8_eq env p ig :
  run_flake8 env p ig =
  (Subprocess (flake8_command p ig) None
     :: handler_log (not_installed_message Flake8) (failed_message Flake8)
          (spawn env (flake8_command p ig) None),
   Return (captured (spawn env (flake8_command p ig) None))).
Proof.
  unfold run_flake8, subprocess_run. cbn.
  destruct (spawn env (flake8_command p ig) None) as [cp|[m|m]]; reflexivity.
Qed.

Lemma run_pylint_eq env p ig :
  run_pylint env p ig =
  (Subprocess (pylint_command p ig) None
     :: handler_log (not_installed_message Pylint) (failed_message Pylint)
          (spawn env (pylint_command p ig) None),
   Return (captured (spawn env (pylint_command p ig) None))).
Proof.
  unfold run_pylint, subprocess_run. cbn.
  destruct (spawn env (pylint_command p ig) None) as [cp|[m|m]]; reflexivity.
Qed.

Lemma run_pyre_eq env args :
  run_pyre env (project_path args) (ignore args) =
  ((pyre_body_trace env (project_path args) (ignore args)
     ++ handler_log (not_installed_message PyreCheck)
          (failed_message PyreCheck) (attempt env args PyreCheck))%list,
   Return (captured (attempt env args PyreCheck))).
Proof.
  unfold run_pyre, with_temporary_directory, pyre_body_trace, attempt,
    open_write, subprocess_run, pyre_config_path.
  destruct (mkdtemp env) as [[m|m]|d]; [reflexivity | reflexivity |].
  destruct (write_file env _ _) as [[m|m]|]; [reflexivity | reflexivity |].
  cbn.
  destruct (spawn env _ _) as [cp|[m|m]]; reflexivity.
Qed.

Lemma run_tool_result env args t :
  result (run_tool env args t) = Return (captured (attempt env args t)).
Proof.
  destruct t; cbn [run_tool].
  - rewrite run_flake8_eq. reflexivity.
  - rewrite run_pylint_eq. reflexivity.
  - rewrite run_pyre_eq. reflexivity.
Qed.

Lemma run_tool_eta env args t :
  run_tool env args t =
  (trace (run_tool env args t), Return (captured (attempt env args t))).
Proof.
  rewrite <- run_tool_result. apply proc_eta.
Qed.

(** *** The dispatcher *)

Lemma dispatch_eq env args :
  dispatch env args =
  (flat_map (tool_events env args) (selected (dependencies args)),
   Return (map (tool_entry env args) (selected (dependencies args)))).
Proof.
  unfold dispatch, selected, canonical.
  change (run_flake8 env (project_path args) (ignore args))
    with (run_tool env args Flake8).
  change (run_pylint env (project_path args) (ignore args))
    with (run_tool env args Pylint).
  change (run_pyre env (project_path args) (ignore args))
    with (run_tool env args PyreCheck).
  rewrite (run_tool_eta env args Flake8), (run_tool_eta env args Pylint),
    (run_tool_eta env args PyreCheck).
  cbn [filter tool_name].
  destruct (Py.contains "flake8" (dependencies args));
    destruct (Py.contains "pylint" (dependencies args));
    destruct (Py.contains "pyre-check" (dependencies args));
    cbn; rewrite ?app_nil_r, <- ?app_assoc; reflexivity.
Qed.

(** *** Delivery and the whole run *)



Lemma main_validated env args :
  validated env args ->
  main env args =
  ((flat_map (tool_events env args) (selected (dependencies args))
     ++ trace (deliver env args (report env args)))%list,
   result (deliver env args (report env args))).
Proof.
  intros Hv. unfold main.
  rewrite (bind_trace_result _ _ _ _ (validate_ok env args Hv)).
  cbn [app]. rewrite (bind_trace_result _ _ _ _ (dispatch_eq env args)).
  reflexivity.
Qed.

Lemma main_rejected env args :
  isdir env (project_path args) = false \/
  (exists dep, In dep (dependencies args) /\ ~ In dep valid_dependencies) ->
  exists msg, main env args = ([Log ERROR msg], SysExit 1%Z).
Proof.
  intros H. destruct (validate_bad env args H) as [msg Hmsg].
  exists msg. unfold main. now rewrite (bind_exit _ _ _ _ Hmsg).
Qed.


(** *** What the runners do and do not emit *)

Lemma handler_log_no_subprocess a b l :
  filter is_subprocess (handler_log a b l) = [].
Proof. destruct l as [cp|[m|m]]; reflexivity. Qed.

Lemma handler_log_no_stdout a b l :
  filter is_stdout (handler_log a b l) = [].
Proof. destruct l as [cp|[m|m]]; reflexivity. Qed.

Lemma invocations_run_tool env args t :
  invocations (trace (run_tool env args t)) = tool_invocation env args t.
Proof.
  unfold invocations. destruct t; cbn [run_tool tool_invocation].
  - rewrite run_flake8_eq. cbn. now rewrite handler_log_no_subprocess.
  - rewrite run_pylint_eq. cbn. now rewrite handler_log_no_subprocess.
  - rewrite run_pyre_eq. cbn [trace fst]. rewrite filter_app.
    rewrite handler_log_no_subprocess, app_nil_r. unfold pyre_body_trace.
    destruct (mkdtemp env) as [e|d]; [reflexivity|].
    destruct (write_file env _ _); reflexivity.
Qed.

Lemma no_stdout_run_tool env args t :
  filter is_stdout (trace (run_tool env args t)) = [].
Proof.
  destruct t; cbn [run_tool].
  - rewrite run_flake8_eq. cbn. now rewrite handler_log_no_stdout.
  - rewrite run_pylint_eq. cbn. now rewrite handler_log_no_stdout.
  - rewrite run_pyre_eq. cbn [trace fst]. rewrite filter_app.
    rewrite handler_log_no_stdout, app_nil_r. unfold pyre_body_trace.
    destruct (mkdtemp env) as [e|d]; [reflexivity|].
    destruct (write_file env _ _); reflexivity.
Qed.

Lemma filter_flat_map {A B} (p : B -> bool) (f : A -> list B) l :
  filter p (flat_map f l) = flat_map (fun x => filter p (f x)) l.
Proof.
  induction l as [|x r IH]; [reflexivity|].
  cbn. now rewrite filter_app, IH.
Qed.

Lemma flat_map_nil {A B} (f : A -> list B) l :
  (forall x, f x = []) -> flat_map f l = [].
Proof.
  intros H. induction l as [|x r IH]; [reflexivity|]. cbn. now rewrite H, IH.
Qed.

Lemma deliver_trace env args output :
  trace (deliver env args output) = delivery env args output.
Proof.
  unfold deliver, delivery, open_write, print.
  destruct (output_file args) as [[|c f]|];
    try (destruct (stdout_write env (output ++ nl)); reflexivity).
  destruct (write_file env (String c f) output) as [e|]; reflexivity.
Qed.

Lemma delivery_no_subprocess env args output :
  filter is_subprocess (delivery env args output) = [].
Proof.
  unfold delivery.
  destruct (output_file args) as [[|c f]|];
    try (destruct (stdout_write env (output ++ nl)); reflexivity).
  destruct (write_file env (String c f) output); reflexivity.
Qed.

Lemma invocations_main env args :
  validated env args ->
  invocations (trace (main env args)) =
  flat_map (tool_invocation env args) (selected (dependencies args)).
Proof.
  intros Hv. rewrite (main_validated env args Hv). cbn [trace fst].
  unfold invocations. rewrite filter_app, deliver_trace.
  rewrite delivery_no_subprocess, app_nil_r, filter_flat_map.
  apply flat_map_ext. intros t. unfold tool_events. cbn [filter announce is_subprocess].
  apply invocations_run_tool.
Qed.

(** *** Selection *)

Lemma selected_names deps :
  map tool_name (selected deps) =
  filter (fun name => Py.contains name deps) valid_dependencies.
Proof.
  unfold selected, canonical, valid_dependencies. cbn [filter tool_name].
  destruct (Py.contains "flake8" deps), (Py.contains "pylint" deps),
    (Py.contains "pyre-check" deps); reflexivity.
Qed.

Lemma selected_In deps t :
  In t (selected deps) <-> In (tool_name t) deps.
Proof.
  unfold selected. rewrite filter_In, contains_In. split.
  - now intros [_ H].
  - intros H. split; [|assumption].
    destruct t; cbn; auto.
Qed.

Lemma selected_ext deps deps' :
  (forall d, In d deps <-> In d deps') -> selected deps = selected deps'.
Proof.
  intros H. unfold selected. apply filter_ext. intros t.
  destruct (Py.contains (tool_name t) deps) eqn:E.
  - symmetry. apply contains_In, H, contains_In, E.
  - symmetry. apply contains_false. intros Hin.
    apply contains_false in E. apply E, H, Hin.
Qed.

Lemma NoDup_selected deps : NoDup (selected deps).
Proof.
  unfold selected. apply NoDup_filter. unfold canonical.
  repeat constructor; cbn; intuition discriminate.
Qed.

Lemma tool_name_inj t t' : tool_name t = tool_name t' -> t = t'.
Proof. destruct t, t'; cbn; intros H; congruence || discriminate. Qed.

Lemma valid_name_is_tool name :
  In name valid_dependencies -> exists t, name = tool_name t.
Proof.
  cbn. intros [<-|[<-|[<-|[]]]];
    [exists Flake8 | exists Pylint | exists PyreCheck]; reflexivity.
Qed.

(** *** Rendering *)

Lemma append_assoc (a b c : string) : (a ++ b) ++ c = a ++ b ++ c.
Proof. induction a as [|x a IH]; cbn; [reflexivity | now rewrite IH]. Qed.

Lemma append_nil_r (a : string) : a ++ "" = a.
Proof. induction a as [|x a IH]; cbn; [reflexivity | now rewrite IH]. Qed.

Lemma render_from (results : Py.dict) (acc : string) :
  fold_left
    (fun output item =>
       let '(tool, result) := item in
       output ++ "--- " ++ Py.upper tool ++ " ---" ++ nl
              ++ result ++ nl ++ nl)
    results acc
  = acc ++ flatten (map section results).
Proof.
  revert acc. induction results as [|[tool out] r IH]; intros acc.
  - cbn. now rewrite append_nil_r.
  - cbn [fold_left map flatten fold_right]. rewrite IH.
    rewrite append_assoc. reflexivity.
Qed.

Lemma render_sections results : render results = flatten (map section results).
Proof. unfold render. now rewrite render_from. Qed.

Lemma flatten_app l l' : flatten (l ++ l') = flatten l ++ flatten l'.
Proof.
  induction l as [|x l IH]; cbn; [reflexivity|].
  fold (flatten (l ++ l')). fold (flatten l). now rewrite IH, append_assoc.
Qed.

Lemma flatten_In x l :
  In x l -> exists a b, flatten l = a ++ x ++ b.
Proof.
  intros H. apply in_split in H. destruct H as [l1 [l2 ->]].
  exists (flatten l1), (flatten l2). now rewrite flatten_app.
Qed.

Lemma report_has_section env args t :
  In (tool_name t) (dependencies args) ->
  exists a b,
    report env args = a ++ section (tool_entry env args t) ++ b.
Proof.
  intros H. unfold report. rewrite render_sections. apply flatten_In.
  apply in_map, in_map. now apply selected_In.
Qed.

Lemma NoDup_map_injective {A B} (f : A -> B) (l : list A) :
  (forall a b, f a = f b -> a = b) -> NoDup l -> NoDup (map f l).
Proof.
  intros Hf. induction 1 as [|x l Hx Hl IH]; cbn; constructor; [|assumption].
  rewrite in_map_iff. intros [y [Hy Hin]]. apply Hf in Hy. now subst.
Qed.

(** *** Only the members of [--dependencies] matter *)

Lemma tool_events_with_dependencies env args deps t :
  tool_events env (with_dependencies args deps) t = tool_events env args t.
Proof. destruct t; reflexivity. Qed.

Lemma tool_entry_with_dependencies env args deps t :
  tool_entry env (with_dependencies args deps) t = tool_entry env args t.
Proof. destruct t; reflexivity. Qed.

Lemma main_with_dependencies env args deps' :
  validated env args ->
  (forall d, In d (dependencies args) <-> In d deps') ->
  main env (with_dependencies args deps') = main env args.
Proof.
  intros Hv Hsame.
  assert (Hv' : validated env (with_dependencies args deps')).
  { destruct Hv as [Hdir Hvalid]. split; [exact Hdir|].
    intros d Hd. apply Hvalid, Hsame, Hd. }
  rewrite (main_validated env _ Hv'), (main_validated env args Hv).
  unfold report. cbn [with_dependencies dependencies].
  rewrite <- (selected_ext _ _ Hsame).
  rewrite (flat_map_ext _ _ (tool_events_with_dependencies env args deps')).
  rewrite (map_ext _ _ (tool_entry_with_dependencies env args deps')).
  reflexivity.
Qed.

(** *** Failure and success of one runner *)

Lemma run_tool_trace env args t :
  exists pre,
    trace (run_tool env args t) =
      (pre ++ handler_log (not_installed_message t) (failed_message t)
                (attempt env args t))%list /\
    forall msg, ~ In (Log ERROR msg) pre.
Proof.
  destruct t; cbn [run_tool].
  - rewrite run_flake8_eq. eexists [_]. split; [reflexivity|].
    intros msg [H|[]]. discriminate.
  - rewrite run_pylint_eq. eexists [_]. split; [reflexivity|].
    intros msg [H|[]]. discriminate.
  - rewrite run_pyre_eq. eexists. split; [reflexivity|].
    intros msg. unfold pyre_body_trace.
    destruct (mkdtemp env) as [e|d]; [intros []|].
    destruct (write_file env _ _); cbn; intuition discriminate.
Qed.

Lemma failure_message_mentions t e :
  exists msg,
    handler_log (not_installed_message t) (failed_message t) (LaunchError e)
    = [Log ERROR msg] /\ mentions msg (tool_name t).
Proof.
  destruct e as [m|m]; cbn [handler_log]; eexists; (split; [reflexivity|]).
  - destruct t.
    + exists "Flake8 is not installed. Please install it using 'pip install ",
        "'.". reflexivity.
    + exists "Pylint is not installed. Please install it using 'pip install ",
        "'.". reflexivity.
    + exists "Pyre-check is not installed. Please install it using 'pip install ",
        "'.". reflexivity.
  - exists "An error occurred while running ", (": " ++ m).
    unfold failed_message. now rewrite !append_assoc.
Qed.

Lemma announced_in_main env args t :
  validated env args ->
  In (tool_name t) (dependencies args) ->
  In (announce t) (trace (main env args)) /\
  incl (tool_invocation env args t) (trace (main env args)).
Proof.
  intros Hv Hin. rewrite (main_validated env args Hv). cbn [trace fst].
  apply selected_In in Hin. split.
  - apply in_or_app. left. apply in_flat_map. exists t. split; [assumption|].
    now left.
  - intros e He. apply in_or_app. left. apply in_flat_map. exists t.
    split; [assumption|]. right.
    rewrite <- invocations_run_tool in He. unfold invocations in He.
    now apply filter_In in He.
Qed.

(** *** Exit codes are not looked at *)

Lemma handler_log_erase a b l :
  handler_log a b (erase_status l) = handler_log a b l.
Proof. destruct l; reflexivity. Qed.

Lemma captured_erase l : captured (erase_status l) = captured l.
Proof. destruct l; reflexivity. Qed.

Lemma attempt_same_up_to_status env env' args t :
  same_up_to_status env env' ->
  erase_status (attempt env args t) = erase_status (attempt env' args t).
Proof.
  intros (_ & Htmp & Hw & _ & Hs). destruct t; cbn [attempt]; try apply Hs.
  rewrite <- Htmp. destruct (mkdtemp env) as [e|d]; [reflexivity|].
  rewrite <- Hw. destruct (write_file env _ _); [reflexivity | apply Hs].
Qed.

Lemma run_tool_same_up_to_status env env' args t :
  same_up_to_status env env' ->
  run_tool env args t = run_tool env' args t.
Proof.
  intros H. pose proof (attempt_same_up_to_status env env' args t H) as Ha.
  destruct t; cbn [run_tool].
  - rewrite !run_flake8_eq. cbn [attempt] in Ha.
    rewrite <- (handler_log_erase _ _ (spawn env _ _)), Ha, handler_log_erase.
    rewrite <- (captured_erase (spawn env _ _)), Ha, captured_erase.
    reflexivity.
  - rewrite !run_pylint_eq. cbn [attempt] in Ha.
    rewrite <- (handler_log_erase _ _ (spawn env _ _)), Ha, handler_log_erase.
    rewrite <- (captured_erase (spawn env _ _)), Ha, captured_erase.
    reflexivity.
  - rewrite !run_pyre_eq.
    rewrite <- (handler_log_erase _ _ (attempt env _ _)), Ha, handler_log_erase.
    rewrite <- (captured_erase (attempt env _ _)), Ha, captured_erase.
    destruct H as (_ & Htmp & Hw & _ & _). unfold pyre_body_trace.
    rewrite <- Htmp. destruct (mkdtemp env) as [e|d]; [reflexivity|].
    rewrite <- Hw. reflexivity.
Qed.

Lemma main_same_up_to_status env env' args :
  same_up_to_status env env' -> main env' args = main env args.
Proof.
  intros H. unfold main.
  assert (Hval : validate env' args = validate env args).
  { unfold validate. destruct H as (Hdir & _). now rewrite Hdir. }
  rewrite Hval. f_equal.
  assert (Hd : dispatch env' args = dispatch env args).
  { rewrite !dispatch_eq. f_equal.
    - apply flat_map_ext. intros t. unfold tool_events.
      now rewrite (run_tool_same_up_to_status env env' args t H).
    - f_equal. apply map_ext. intros t. unfold tool_entry.
      rewrite <- (captured_erase (attempt env' _ _)).
      rewrite <- (attempt_same_up_to_status env env' args t H).
      now rewrite captured_erase. }
  rewrite Hd, dispatch_eq.
  rewrite !(bind_trace_result _ _ _ _ eq_refl).
  assert (Hdel : forall out, deliver env' args out = deliver env args out).
  { intros out. unfold deliver, open_write, print.
    destruct H as (_ & _ & Hw & Hout & _).
    destruct (output_file args) as [[|c f]|];
      try (rewrite Hout; reflexivity).
    now rewrite Hw. }
  now rewrite Hdel.
Qed.

Lemma join_cons sep first more :
  Py.join sep (first :: more)
  = first ++ flatten (map (fun x => sep ++ x) more).
Proof.
  revert first. induction more as [|y r IH]; intros first.
  - cbn. now rewrite append_nil_r.
  - change (Py.join sep (first :: y :: r))
      with (first ++ sep ++ Py.join sep (y :: r)).
    rewrite IH. cbn [map flatten fold_right].
    fold (flatten (map (fun x => sep ++ x) r)).
    now rewrite <- !append_assoc.
Qed.

(** *** Standard output and the exit status *)





Lemma stdout_of_main env args :
  validated env args ->
  filter is_stdout (trace (main env args)) =
  match output_file args with
  | Some (String _ _) => []
  | _ =>
      match stdout_write env (report env args ++ nl) with
      | Written => [Stdout (report env args ++ nl)]
      | _ => []
      end
  end.
Proof.
  intros Hv. rewrite (main_validated env args Hv). cbn [trace fst].
  rewrite deliver_trace, filter_app, filter_flat_map.
  rewrite (flat_map_nil (fun x => filter is_stdout (tool_events env args x))).
  2:{ intros t. unfold tool_events. cbn [filter announce is_stdout].
      apply no_stdout_run_tool. }
  cbn [app]. unfold delivery.
  destruct (output_file args) as [[|c f]|];
    try (destruct (stdout_write env (report env args ++ nl)); reflexivity).
  destruct (write_file env _ _); reflexivity.
Qed.

(** ** The reader and the text of the configuration *)

Lemma append_length (a b : string) :
  String.length (a ++ b) = String.length a + String.length b.
Proof. induction a as [|c a IH]; cbn; [reflexivity | now rewrite IH]. Qed.

Lemma append_inv_head (a b c : string) : a ++ b = a ++ c -> b = c.
Proof.
  induction a as [|x a IH]; cbn; intros H; [assumption|].
  injection H as H. now apply IH.
Qed.

Lemma append_self_nil (a b : string) : a = a ++ b -> b = "".
Proof.
  intros H. apply (f_equal String.length) in H. rewrite append_length in H.
  destruct b; [reflexivity | cbn in H; lia].
Qed.

Lemma has_char_append c a b :
  has_char c (a ++ b) = (has_char c a || has_char c b)%bool.
Proof.
  induction a as [|x a IH]; cbn; [reflexivity|].
  now rewrite IH, orb_assoc.
Qed.

Lemma emit_token_some t r ts :
  Json.emit_token t r = Some ts ->
  exists ts', r = Some ts' /\ ts = t :: ts'.
Proof.
  destruct r as [ts'|]; cbn; intros H; [|discriminate].
  injection H as <-. now exists ts'.
Qed.

(** A string token always starts with what had been read of it. *)
Lemma lex_in_string_prefix n :
  forall s, String.length s <= n ->
  forall acc ts, Json.lex (Json.InString acc) s = Some ts ->
  exists d rest, ts = Json.Str (acc ++ d) :: rest.
Proof.
  induction n as [|n IH]; intros s Hlen acc ts H.
  - destruct s; [discriminate | cbn in Hlen; lia].
  - destruct s as [|c r]; [discriminate|]. cbn [String.length] in Hlen.
    cbn [Json.lex] in H.
    destruct (Ascii.eqb c DQUOTE).
    { apply emit_token_some in H. destruct H as [ts' [_ ->]].
      exists "", ts'. now rewrite append_nil_r. }
    destruct (Ascii.eqb c BACKSLASH).
    { destruct r as [|x r']; [discriminate|]. cbn [String.length] in Hlen.
      destruct (Ascii.eqb x "u").
      - destruct r' as [|h1 [|h2 [|h3 [|h4 r'']]]]; try discriminate.
        cbn [String.length] in Hlen.
        destruct (Json.unicode h1 h2 h3 h4) as [y|]; [|discriminate].
        apply IH in H; [|lia]. destruct H as [d [rest ->]].
        exists (String y d), rest. unfold Json.push.
        now rewrite append_assoc.
      - destruct (Json.simple_escape x) as [y|]; [|discriminate].
        apply IH in H; [|lia]. destruct H as [d [rest ->]].
        exists (String y d), rest. unfold Json.push.
        now rewrite append_assoc. }
    destruct (Json.is_control c); [discriminate|].
    apply IH in H; [|lia]. destruct H as [d [rest ->]].
    exists (String c d), rest. unfold Json.push. now rewrite append_assoc.
Qed.

(** If the next character read into the string is [y], and the finished
    string is [acc ++ q], then [q] starts with [y]. *)
Lemma lex_pushed_head s acc y q ts :
  Json.lex (Json.InString (Json.push acc y)) s
    = Some (Json.Str (acc ++ q) :: ts) ->
  exists q', q = String y q'.
Proof.
  intros H.
  destruct (lex_in_string_prefix _ s (le_n _) _ _ H) as [d [rest Heq]].
  injection Heq as Heq _. unfold Json.push in Heq.
  rewrite append_assoc in Heq. apply append_inv_head in Heq.
  exists d. exact Heq.
Qed.

Lemma backslash_not_quote : BACKSLASH <> DQUOTE.
Proof. intros H. cbv in H. discriminate. Qed.

Lemma has_quote_head q p :
  has_char DQUOTE (String q p) = false -> q <> DQUOTE /\ has_char DQUOTE p = false.
Proof.
  cbn. intros H. apply orb_false_iff in H. destruct H as [Hq Hp].
  split; [|assumption]. intros ->. now rewrite Ascii.eqb_refl in Hq.
Qed.

Lemma unicode_digits_no_quote h1 h2 h3 h4 y :
  Json.unicode h1 h2 h3 h4 = Some y ->
  has_char DQUOTE (String h1 (String h2 (String h3 (String h4 "")))) = false.
Proof.
  unfold Json.unicode. intros H.
  assert (Hq : forall h, Json.hex_value h <> None -> Ascii.eqb h DQUOTE = false).
  { intros h Hh. destruct (Ascii.eqb_spec h DQUOTE) as [->|]; [|reflexivity].
    exfalso. apply Hh. reflexivity. }
  destruct (Json.hex_value h1) eqn:E1; [|discriminate].
  destruct (Json.hex_value h2) eqn:E2; [|discriminate].
  destruct (Json.hex_value h3) eqn:E3; [|discriminate].
  destruct (Json.hex_value h4) eqn:E4; [|discriminate].
  cbn. rewrite !Hq by congruence. reflexivity.
Qed.

Lemma lex_aligned_step n (IH : aligned_upto n) w acc y p consumed tail ts :
  String.length w <= n ->
  consumed <> "" ->
  has_char DQUOTE p = false ->
  has_char DQUOTE consumed = false ->
  Json.lex (Json.InString (Json.push acc y)) (w ++ String DQUOTE tail)
    = Some (Json.Str (acc ++ p ++ consumed ++ w) :: ts) ->
  p = "" /\ consumed = String y "" /\
  Json.plain w = true /\ Json.lex Json.Top tail = Some ts.
Proof.
  intros Hlen Hne Hp Hc H.
  destruct (lex_pushed_head _ _ _ _ _ H) as [q' Hq'].
  assert (Hz : exists z', p ++ consumed = String y z').
  { destruct p as [|q p0].
    - destruct consumed as [|c0 k]; [congruence|].
      cbn in Hq'. injection Hq' as -> _. now exists k.
    - cbn in Hq'. injection Hq' as -> _. now exists (p0 ++ consumed). }
  destruct Hz as [z' Hz].
  assert (Hq : has_char DQUOTE z' = false).
  { assert (Hall : has_char DQUOTE (p ++ consumed) = false)
      by (rewrite has_char_append, Hp, Hc; reflexivity).
    rewrite Hz in Hall. now apply has_quote_head in Hall. }
  assert (Heq : acc ++ p ++ consumed ++ w = Json.push acc y ++ z' ++ w).
  { unfold Json.push. rewrite <- (append_assoc p consumed w), Hz.
    now rewrite append_assoc. }
  rewrite Heq in H.
  destruct (IH w Hlen _ _ _ _ Hq H) as (Hz' & Hplain & Hrest).
  subst z'. destruct p as [|q p0].
  - cbn in Hz. now repeat split.
  - cbn in Hz. injection Hz as _ Hz.
    destruct p0; [|discriminate]. cbn in Hz. congruence.
Qed.

Lemma lex_aligned n : aligned_upto n.
Proof.
  induction n as [|n IH]; intros w Hlen acc p tail ts Hp H.
  - destruct w; [|cbn in Hlen; lia].
    cbn [append Json.lex] in H. rewrite Ascii.eqb_refl in H.
    apply emit_token_some in H. destruct H as [ts' [Hts Heq]].
    injection Heq as Heq ->. rewrite append_nil_r in Heq.
    symmetry in Heq. apply append_self_nil in Heq. now subst.
  - destruct w as [|c w'].
    { cbn [append Json.lex] in H. rewrite Ascii.eqb_refl in H.
      apply emit_token_some in H. destruct H as [ts' [Hts Heq]].
      injection Heq as Heq ->. rewrite append_nil_r in Heq.
      symmetry in Heq. apply append_self_nil in Heq. now subst. }
    cbn [String.length] in Hlen. cbn [append Json.lex] in H.
    destruct (Ascii.eqb_spec c DQUOTE) as [->|Hcq].
    { apply emit_token_some in H. destruct H as [ts' [_ Heq]].
      injection Heq as Heq _. symmetry in Heq. apply append_self_nil in Heq.
      destruct p; discriminate. }
    destruct (Ascii.eqb_spec c BACKSLASH) as [->|Hcb].
    + (* an escape *)
      assert (Hquote : forall rest,
                Json.lex (Json.InString (Json.push acc DQUOTE)) rest
                  = Some (Json.Str (acc ++ p ++ String BACKSLASH w') :: ts) ->
                False).
      { intros rest Hr. destruct (lex_pushed_head _ _ _ _ _ Hr) as [q' Hq'].
        destruct p as [|q p0]; cbn in Hq'; injection Hq' as Hh _.
        - now apply backslash_not_quote.
        - apply has_quote_head in Hp. now destruct Hp. }
      destruct w' as [|x w'']; cbn [append] in H.
      { change (Ascii.eqb DQUOTE "u") with false in H.
        change (Json.simple_escape DQUOTE) with (Some DQUOTE) in H.
        exfalso. exact (Hquote _ H). }
      cbn [String.length] in Hlen.
      destruct (Ascii.eqb_spec x "u") as [->|Hxu].
      * destruct w'' as [|h1 [|h2 [|h3 [|h4 w3]]]]; cbn [append] in H.
        -- exfalso. destruct tail as [|a [|b [|d t]]]; try discriminate.
           all: try (change (Json.unicode DQUOTE a b d) with (@None ascii) in H;
                     discriminate).
        -- exfalso. destruct tail as [|a [|b t]]; try discriminate.
           all: try (unfold Json.unicode in H;
                     destruct (Json.hex_value h1); [|discriminate];
                     change (Json.hex_value DQUOTE) with (@None nat) in H;
                     discriminate).
        -- exfalso. destruct tail as [|a t]; try discriminate.
           all: try (unfold Json.unicode in H;
                     destruct (Json.hex_value h1); [|discriminate];
                     destruct (Json.hex_value h2); [|discriminate];
                     change (Json.hex_value DQUOTE) with (@None nat) in H;
                     discriminate).
        -- exfalso. try discriminate.
           all: try (unfold Json.unicode in H;
                     destruct (Json.hex_value h1); [|discriminate];
                     destruct (Json.hex_value h2); [|discriminate];
                     destruct (Json.hex_value h3); [|discriminate];
                     change (Json.hex_value DQUOTE) with (@None nat) in H;
                     discriminate).
        -- destruct (Json.unicode h1 h2 h3 h4) as [y|] eqn:Hu;
             [|discriminate].
           cbn [String.length] in Hlen.
           pose proof (unicode_digits_no_quote _ _ _ _ _ Hu) as Hd.
           destruct (lex_aligned_step n IH w3 acc y p
                       (String BACKSLASH
                          (String "u" (String h1 (String h2
                             (String h3 (String h4 ""))))))
                       tail ts) as (_ & Habs & _);
             try assumption; try lia; discriminate.
      * destruct (Ascii.eqb_spec x DQUOTE) as [->|Hxq].
        { change (Json.simple_escape DQUOTE) with (Some DQUOTE) in H.
          exfalso. exact (Hquote _ H). }
        destruct (Json.simple_escape x) as [y|]; [|discriminate].
        assert (Hx : has_char DQUOTE (String BACKSLASH (String x "")) = false).
        { cbn [has_char].
          destruct (Ascii.eqb_spec BACKSLASH DQUOTE) as [E|_];
            [now apply backslash_not_quote in E|].
          destruct (Ascii.eqb_spec x DQUOTE); [contradiction | reflexivity]. }
        destruct (lex_aligned_step n IH w'' acc y p
                    (String BACKSLASH (String x "")) tail ts)
          as (_ & Habs & _); try assumption; try lia; discriminate.
    + (* a character that stands for itself *)
      destruct (Json.is_control c) eqn:Hctl; [discriminate|].
      assert (Hc : has_char DQUOTE (String c "") = false).
      { cbn [has_char]. destruct (Ascii.eqb_spec c DQUOTE);
          [contradiction | reflexivity]. }
      destruct (lex_aligned_step n IH w' acc c p (String c "") tail ts)
        as (Hp0 & _ & Hplain & Hrest); try assumption; try lia;
        try discriminate.
      split; [assumption|]. split; [|assumption].
      cbn [Json.plain]. rewrite Hplain. unfold Json.plain_char.
      rewrite Hctl.
      destruct (Ascii.eqb_spec c DQUOTE); [contradiction|].
      destruct (Ascii.eqb_spec c BACKSLASH); [contradiction|].
      reflexivity.
Qed.

Lemma plain_no_quote_no_backslash s :
  Json.plain s = true ->
  has_char DQUOTE s = false /\ has_char BACKSLASH s = false.
Proof.
  induction s as [|c s IH]; [now split|].
  cbn [Json.plain has_char]. intros H. apply andb_true_iff in H.
  destruct H as [Hc Hs]. destruct (IH Hs) as [-> ->].
  unfold Json.plain_char in Hc. apply negb_true_iff in Hc.
  apply orb_false_iff in Hc. destruct Hc as [Hc _].
  apply orb_false_iff in Hc. destruct Hc as [-> ->]. now split.
Qed.

(** The entries after the first: each is preceded by a comma and a space
    in the text and by a comma among the tokens. *)
Lemma lex_more_entries more :
  forall tail ts,
    Json.lex Json.Top
      (flatten (map (fun x => ", " ++ x) (map quote_entry more)) ++ tail)
    = Some (flat_map (fun y => Json.Comma :: y)
              (map (fun e => [Json.Str e]) more) ++ ts)%list ->
    Forall (fun e => Json.plain e = true) more /\
    Json.lex Json.Top tail = Some ts.
Proof.
  induction more as [|e r IH]; intros tail ts H.
  - split; [constructor | exact H].
  - cbn [map flatten fold_right flat_map] in H.
    fold (flatten (map (fun x => ", " ++ x) (map quote_entry r))) in H.
    unfold quote_entry at 1 in H. rewrite !append_assoc in H.
    change (Json.lex Json.Top
              (", " ++ dq ++ e ++ dq ++
               flatten (map (fun x => ", " ++ x) (map quote_entry r)) ++ tail))
      with (Json.emit_token Json.Comma
              (Json.lex (Json.InString "")
                 (e ++ String DQUOTE
                    (flatten (map (fun x => ", " ++ x) (map quote_entry r))
                       ++ tail)))) in H.
    apply emit_token_some in H. destruct H as [ts' [H Heq]].
    cbn [app] in Heq. injection Heq as Heq. subst ts'.
    destruct (lex_aligned _ e (le_n _) "" "" _ _ eq_refl H) as (_ & He & Hr).
    destruct (IH _ _ Hr) as [Hall Htail].
    split; [now constructor | exact Htail].
Qed.

Lemma lex_entries ig :
  forall tail ts,
    Json.lex Json.Top (Py.join ", " (map quote_entry ig) ++ tail)
    = Some (Json.separated (map (fun e => [Json.Str e]) ig) ++ ts)%list ->
    Forall (fun e => Json.plain e = true) ig /\
    Json.lex Json.Top tail = Some ts.
Proof.
  destruct ig as [|e r]; intros tail ts H.
  - split; [constructor | exact H].
  - cbn [map] in H. rewrite join_cons in H. unfold quote_entry at 1 in H.
    rewrite !append_assoc in H. cbn [Json.separated app] in H.
    change (Json.lex Json.Top
              (dq ++ e ++ dq ++
               flatten (map (fun x => ", " ++ x) (map quote_entry r)) ++ tail))
      with (Json.lex (Json.InString "")
              (e ++ String DQUOTE
                 (flatten (map (fun x => ", " ++ x) (map quote_entry r))
                    ++ tail))) in H.
    destruct (lex_aligned _ e (le_n _) "" "" _ _ eq_refl H) as (_ & He & Hr).
    destruct (lex_more_entries _ _ _ Hr) as [Hall Htail].
    split; [now constructor | exact Htail].
Qed.

(** *** The parser reads back exactly the tokens of the value it returns *)

Lemma flat_map_map {A B C} (f : A -> B) (g : B -> list C) l :
  flat_map g (map f l) = flat_map (fun x => g (f x)) l.
Proof.
  induction l as [|x l IH]; cbn; [reflexivity | now rewrite IH].
Qed.

Lemma tokens_of_array v vs :
  Json.tokens_of (Json.VArray (v :: vs)) =
  (Json.LBracket :: Json.tokens_of v ++ flat_map item_tokens vs
     ++ [Json.RBracket])%list.
Proof.
  cbn [Json.tokens_of map Json.separated]. rewrite flat_map_map.
  rewrite <- app_assoc. reflexivity.
Qed.

Lemma tokens_of_object k v ms :
  Json.tokens_of (Json.VObject ((k, v) :: ms)) =
  (Json.LBrace :: Json.Str k :: Json.Colon :: Json.tokens_of v
     ++ flat_map member_tokens ms ++ [Json.RBrace])%list.
Proof.
  cbn [Json.tokens_of map Json.separated fst snd]. rewrite flat_map_map.
  cbn [app]. rewrite <- app_assoc. reflexivity.
Qed.

Lemma parse_sound n : parse_sound_upto n.
Proof.
  induction n as [|n (IHv & IHi & IHm)].
  - repeat split; intros; discriminate.
  - assert (Harr : forall ts v r,
              match Json.parse_value n ts with
              | Some (v1, r1) =>
                  match Json.parse_items n r1 with
                  | Some (vs, r2) => Some (Json.VArray (v1 :: vs), r2)
                  | None => None
                  end
              | None => None
              end = Some (v, r) ->
              (Json.LBracket :: ts)%list = (Json.tokens_of v ++ r)%list).
    { intros ts v r H.
      destruct (Json.parse_value n ts) as [[v1 r1]|] eqn:E1; [|discriminate].
      destruct (Json.parse_items n r1) as [[vs r2]|] eqn:E2; [|discriminate].
      injection H as <- <-. apply IHv in E1. apply IHi in E2. subst.
      rewrite tokens_of_array. cbn [app]. f_equal.
      rewrite <- !app_assoc. reflexivity. }
    assert (Hobj : forall k ts v r,
              match Json.parse_value n ts with
              | Some (v1, r1) =>
                  match Json.parse_members n r1 with
                  | Some (ms, r2) => Some (Json.VObject ((k, v1) :: ms), r2)
                  | None => None
                  end
              | None => None
              end = Some (v, r) ->
              (Json.LBrace :: Json.Str k :: Json.Colon :: ts)%list
              = (Json.tokens_of v ++ r)%list).
    { intros k ts v r H.
      destruct (Json.parse_value n ts) as [[v1 r1]|] eqn:E1; [|discriminate].
      destruct (Json.parse_members n r1) as [[ms r2]|] eqn:E2;
        [|discriminate].
      injection H as <- <-. apply IHv in E1. apply IHm in E2. subst.
      rewrite tokens_of_object. cbn [app]. do 3 f_equal.
      rewrite <- !app_assoc. reflexivity. }
    split; [|split].
    + intros ts v r H. cbn [Json.parse_value] in H.
      destruct ts as [|t ts]; [discriminate|].
      destruct t; try discriminate.
      * (* object *)
        destruct ts as [|t2 ts2]; [discriminate|].
        destruct t2; try discriminate.
        -- injection H as <- <-. reflexivity.
        -- destruct ts2 as [|t3 ts3]; [discriminate|].
           destruct t3; try discriminate. now apply Hobj.
      * (* array *)
        destruct ts as [|t2 ts2]; [now apply Harr|].
        destruct t2; try (now apply Harr).
        injection H as <- <-. reflexivity.
      * injection H as <- <-. reflexivity.
      * injection H as <- <-. reflexivity.
      * injection H as <- <-. reflexivity.
      * injection H as <- <-. reflexivity.
    + intros ts vs r H. cbn [Json.parse_items] in H.
      destruct ts as [|t ts]; [discriminate|].
      destruct t; try discriminate.
      * injection H as <- <-. reflexivity.
      * destruct (Json.parse_value n ts) as [[v1 r1]|] eqn:E1;
          [|discriminate].
        destruct (Json.parse_items n r1) as [[vs' r2]|] eqn:E2;
          [|discriminate].
        injection H as <- <-. apply IHv in E1. apply IHi in E2. subst.
        cbn [flat_map item_tokens app]. f_equal.
        rewrite <- !app_assoc. reflexivity.
    + intros ts ms r H. cbn [Json.parse_members] in H.
      destruct ts as [|t ts]; [discriminate|].
      destruct t; try discriminate.
      * injection H as <- <-. reflexivity.
      * destruct ts as [|t2 ts2]; [discriminate|].
        destruct t2; try discriminate.
        destruct ts2 as [|t3 ts3]; [discriminate|].
        destruct t3; try discriminate.
        destruct (Json.parse_value n ts3) as [[v1 r1]|] eqn:E1;
          [|discriminate].
        destruct (Json.parse_members n r1) as [[ms' r2]|] eqn:E2;
          [|discriminate].
        injection H as <- <-. apply IHv in E1. apply IHm in E2. subst.
        cbn [flat_map member_tokens app fst snd]. do 3 f_equal.
        rewrite <- !app_assoc. reflexivity.
Qed.

Lemma read_tokens s v :
  Json.read s = Some v -> Json.lex Json.Top s = Some (Json.tokens_of v).
Proof.
  unfold Json.read. destruct (Json.lex Json.Top s) as [ts|]; [|discriminate].
  destruct (Json.parse_value (S (List.length ts)) ts) as [[v' r]|] eqn:E;
    [|discriminate].
  destruct r; [|discriminate]. intros H. injection H as ->.
  apply (proj1 (parse_sound _)) in E. rewrite app_nil_r in E. now subst.
Qed.

(** *** The configuration document *)

Lemma intended_tokens p ig :
  Json.tokens_of (intended_configuration p ig) =
  ([Json.LBrace; Json.Str "ignore"; Json.Colon; Json.LBracket]
     ++ Json.separated (map (fun e => [Json.Str e]) ig)
     ++ [Json.RBracket; Json.Comma;
         Json.Str "typeshed"; Json.Colon; Json.Null; Json.Comma;
         Json.Str "use_buck"; Json.Colon; Json.False; Json.Comma;
         Json.Str "source_directories"; Json.Colon;
         Json.LBracket; Json.Str p; Json.RBracket; Json.RBrace])%list.
Proof.
  unfold intended_configuration.
  cbn [Json.tokens_of map Json.separated flat_map fst snd app].
  rewrite map_map. cbn [Json.tokens_of].
  rewrite <- !app_assoc. reflexivity.
Qed.

Ltac peel H :=
  let ts := fresh "ts" in
  let E := fresh "E" in
  apply emit_token_some in H; destruct H as [ts [H E]];
  injection E as E; subst ts.

Lemma lex_configuration_plain p ig :
  Json.lex Json.Top (pyre_configuration p ig)
    = Some (Json.tokens_of (intended_configuration p ig)) ->
  Forall (fun e => Json.plain e = true) ig /\ Json.plain p = true.
Proof.
  rewrite intended_tokens. unfold pyre_configuration.
  intros H.
  match type of H with
  | Json.lex Json.Top (_ ++ _ ++ _ ++ _ ++ _ ++ _ ++ _ ++ ?X) = _ =>
      change (Json.emit_token Json.LBrace
                (Json.emit_token (Json.Str "ignore")
                   (Json.emit_token Json.Colon
                      (Json.emit_token Json.LBracket (Json.lex Json.Top X))))
              = Some
                  ([Json.LBrace; Json.Str "ignore"; Json.Colon; Json.LBracket]
                     ++ Json.separated (map (fun e => [Json.Str e]) ig)
                     ++ [Json.RBracket; Json.Comma;
                         Json.Str "typeshed"; Json.Colon; Json.Null;
                         Json.Comma;
                         Json.Str "use_buck"; Json.Colon; Json.False;
                         Json.Comma;
                         Json.Str "source_directories"; Json.Colon;
                         Json.LBracket; Json.Str p; Json.RBracket;
                         Json.RBrace])%list) in H
  end.
  cbn [app] in H. do 4 peel H.
  apply lex_entries in H. destruct H as [Hig H]. split; [exact Hig|].
  change (Json.emit_token Json.RBracket
           (Json.emit_token Json.Comma
             (Json.emit_token (Json.Str "typeshed")
               (Json.emit_token Json.Colon
                 (Json.emit_token Json.Null
                   (Json.emit_token Json.Comma
                     (Json.emit_token (Json.Str "use_buck")
                       (Json.emit_token Json.Colon
                         (Json.emit_token Json.False
                           (Json.emit_token Json.Comma
                             (Json.emit_token (Json.Str "source_directories")
                               (Json.emit_token Json.Colon
                                 (Json.emit_token Json.LBracket
                                   (Json.lex (Json.InString "")
                                      (p ++ String DQUOTE ("]" ++ nl ++ "}"))
                                   )))))))))))))
          = Some
              [Json.RBracket; Json.Comma;
               Json.Str "typeshed"; Json.Colon; Json.Null; Json.Comma;
               Json.Str "use_buck"; Json.Colon; Json.False; Json.Comma;
               Json.Str "source_directories"; Json.Colon;
               Json.LBracket; Json.Str p; Json.RBracket; Json.RBrace]) in H.
  do 13 peel H.
  now destruct (lex_aligned _ p (le_n _) "" "" _ _ eq_refl H) as (_ & Hp & _).
Qed.

(** *** Plain entries and a plain path are read back as they are *)

Lemma plain_char_tests c :
  Json.plain_char c = true ->
  Ascii.eqb c DQUOTE = false /\ Ascii.eqb c BACKSLASH = false /\
  Json.is_control c = false.
Proof.
  unfold Json.plain_char. intros H. apply negb_true_iff in H.
  apply orb_false_iff in H. destruct H as [H Hc].
  apply orb_false_iff in H. destruct H as [Hq Hb]. now repeat split.
Qed.

Lemma lex_plain_string w :
  forall acc tail,
    Json.plain w = true ->
    Json.lex (Json.InString acc) (w ++ String DQUOTE tail)
    = Json.emit_token (Json.Str (acc ++ w)) (Json.lex Json.Top tail).
Proof.
  induction w as [|c w IH]; intros acc tail Hw.
  - cbn [append Json.lex]. rewrite Ascii.eqb_refl. now rewrite append_nil_r.
  - cbn [Json.plain] in Hw. apply andb_true_iff in Hw. destruct Hw as [Hc Hw].
    destruct (plain_char_tests c Hc) as (Hq & Hb & Hctl).
    cbn [append Json.lex]. rewrite Hq, Hb, Hctl. rewrite (IH _ _ Hw).
    unfold Json.push. now rewrite append_assoc.
Qed.

Lemma emit_tokens_cons t front rest :
  Json.emit_token t (emit_tokens front rest) = emit_tokens (t :: front) rest.
Proof. destruct rest; reflexivity. Qed.

Lemma lex_more_entries_plain more :
  forall tail,
    Forall (fun e => Json.plain e = true) more ->
    Json.lex Json.Top
      (flatten (map (fun x => ", " ++ x) (map quote_entry more)) ++ tail)
    = emit_tokens
        (flat_map (fun y => Json.Comma :: y)
           (map (fun e => [Json.Str e]) more))
        (Json.lex Json.Top tail).
Proof.
  induction more as [|e r IH]; intros tail Hall.
  - cbn. now destruct (Json.lex Json.Top tail).
  - inversion Hall as [|e' r' He Hr]; subst.
    cbn [map flatten fold_right flat_map].
    fold (flatten (map (fun x => ", " ++ x) (map quote_entry r))).
    unfold quote_entry at 1. rewrite !append_assoc.
    change (Json.lex Json.Top
              (", " ++ dq ++ e ++ dq ++
               flatten (map (fun x => ", " ++ x) (map quote_entry r)) ++ tail))
      with (Json.emit_token Json.Comma
              (Json.lex (Json.InString "")
                 (e ++ String DQUOTE
                    (flatten (map (fun x => ", " ++ x) (map quote_entry r))
                       ++ tail)))).
    rewrite (lex_plain_string e "" _ He), (IH _ Hr).
    cbn [append app]. now rewrite !emit_tokens_cons.
Qed.

Lemma lex_entries_plain ig tail :
  Forall (fun e => Json.plain e = true) ig ->
  Json.lex Json.Top (Py.join ", " (map quote_entry ig) ++ tail)
  = emit_tokens (Json.separated (map (fun e => [Json.Str e]) ig))
      (Json.lex Json.Top tail).
Proof.
  destruct ig as [|e r]; intros Hall.
  - cbn. now destruct (Json.lex Json.Top tail).
  - inversion Hall as [|e' r' He Hr]; subst.
    cbn [map]. rewrite join_cons. unfold quote_entry at 1.
    rewrite !append_assoc. cbn [Json.separated app].
    change (Json.lex Json.Top
              (dq ++ e ++ dq ++
               flatten (map (fun x => ", " ++ x) (map quote_entry r)) ++ tail))
      with (Json.lex (Json.InString "")
              (e ++ String DQUOTE
                 (flatten (map (fun x => ", " ++ x) (map quote_entry r))
                    ++ tail))).
    rewrite (lex_plain_string e "" _ He), (lex_more_entries_plain _ _ Hr).
    cbn [append]. now rewrite emit_tokens_cons.
Qed.

Lemma lex_configuration_of_plain p ig :
  Forall (fun e => Json.plain e = true) ig ->
  Json.plain p = true ->
  Json.lex Json.Top (pyre_configuration p ig)
  = Some (Json.tokens_of (intended_configuration p ig)).
Proof.
  intros Hig Hp. rewrite intended_tokens. unfold pyre_configuration.
  match goal with
  | |- Json.lex Json.Top (_ ++ _ ++ _ ++ _ ++ _ ++ _ ++ _ ++ ?X) = _ =>
      change (Json.lex Json.Top
                ("{" ++ nl ++ "  " ++ dq ++ "ignore" ++ dq ++ ": [" ++ X))
        with (Json.emit_token Json.LBrace
                (Json.emit_token (Json.Str "ignore")
                   (Json.emit_token Json.Colon
                      (Json.emit_token Json.LBracket (Json.lex Json.Top X)))))
  end.
  rewrite (lex_entries_plain _ _ Hig).
  match goal with
  | |- context [emit_tokens _ (Json.lex Json.Top ?T)] =>
      change (Json.lex Json.Top T)
        with (Json.emit_token Json.RBracket
               (Json.emit_token Json.Comma
                 (Json.emit_token (Json.Str "typeshed")
                   (Json.emit_token Json.Colon
                     (Json.emit_token Json.Null
                       (Json.emit_token Json.Comma
                         (Json.emit_token (Json.Str "use_buck")
                           (Json.emit_token Json.Colon
                             (Json.emit_token Json.False
                               (Json.emit_token Json.Comma
                                 (Json.emit_token
                                    (Json.Str "source_directories")
                                   (Json.emit_token Json.Colon
                                     (Json.emit_token Json.LBracket
                                       (Json.lex (Json.InString "")
                                          (p ++ String DQUOTE
                                                  ("]" ++ nl ++ "}")))
                                     )))))))))))))
  end.
  rewrite (lex_plain_string p "" _ Hp).
  change (Json.lex Json.Top ("]" ++ nl ++ "}"))
    with (Some [Json.RBracket; Json.RBrace]).
  cbn [Json.emit_token emit_tokens append app]. reflexivity.
Qed.

Lemma parse_items_strings r :
  forall n rest,
    List.length r < n ->
    Json.parse_items n
      (flat_map (fun y => Json.Comma :: y) (map (fun e => [Json.Str e]) r)
         ++ Json.RBracket :: rest)%list
    = Some (map Json.VString r, rest).
Proof.
  induction r as [|e r IH]; intros n rest Hn.
  - destruct n as [|n]; [cbn in Hn; lia | reflexivity].
  - cbn [List.length] in Hn.
    destruct n as [|[|n]]; [lia | lia |].
    cbn [map flat_map app].
    change (Json.parse_items (S (S n))
              (Json.Comma :: Json.Str e
                 :: flat_map (fun y => Json.Comma :: y)
                      (map (fun e => [Json.Str e]) r)
                    ++ Json.RBracket :: rest)%list)
      with (match Json.parse_items (S n)
                    (flat_map (fun y => Json.Comma :: y)
                       (map (fun e => [Json.Str e]) r)
                     ++ Json.RBracket :: rest)%list with
            | Some (vs, r2) => Some (Json.VString e :: vs, r2)
            | None => None
            end).
    rewrite IH by lia. reflexivity.
Qed.

Lemma separated_strings_length ig :
  List.length ig
  <= S (List.length (Json.separated (map (fun e => [Json.Str e]) ig))).
Proof.
  destruct ig as [|e r]; [cbn; lia|].
  cbn [map Json.separated app List.length].
  assert (H : List.length r
              <= List.length
                   (flat_map (fun y => Json.Comma :: y)
                      (map (fun e => [Json.Str e]) r))).
  { induction r as [|x r IH]; cbn; lia. }
  lia.
Qed.

Lemma parse_intended p ig n :
  List.length ig + 6 <= n ->
  Json.parse_value n (Json.tokens_of (intended_configuration p ig))
  = Some (intended_configuration p ig, []).
Proof.
  intros Hn. rewrite intended_tokens.
  destruct n as [|[|[|[|[|[|n]]]]]]; try lia.
  destruct ig as [|e r].
  - reflexivity.
  - cbn [List.length] in Hn.
    assert (Hitems :
      Json.parse_items (S (S (S (S n))))
        (flat_map (fun y => Json.Comma :: y)
           (map (fun e => [Json.Str e]) r)
         ++ Json.RBracket
            :: [Json.Comma;
                Json.Str "typeshed"; Json.Colon; Json.Null; Json.Comma;
                Json.Str "use_buck"; Json.Colon; Json.False; Json.Comma;
                Json.Str "source_directories"; Json.Colon;
                Json.LBracket; Json.Str p; Json.RBracket; Json.RBrace])%list
      = Some (map Json.VString r,
              [Json.Comma;
               Json.Str "typeshed"; Json.Colon; Json.Null; Json.Comma;
               Json.Str "use_buck"; Json.Colon; Json.False; Json.Comma;
               Json.Str "source_directories"; Json.Colon;
               Json.LBracket; Json.Str p; Json.RBracket; Json.RBrace]))
      by (apply parse_items_strings; lia).
    cbn [map Json.separated app].
    unfold intended_configuration.
    match goal with
    | |- Json.parse_value _ (_ :: _ :: _ :: _ :: _ :: ?X) = _ =>
        change (Json.parse_value (S (S (S (S (S (S n))))))
                  (Json.LBrace :: Json.Str "ignore" :: Json.Colon
                     :: Json.LBracket :: Json.Str e :: X))
          with (match
                  match Json.parse_items (S (S (S (S n)))) X with
                  | Some (vs, r2) =>
                      Some (Json.VArray (Json.VString e :: vs), r2)
                  | None => None
                  end
                with
                | Some (v, r1) =>
                    match Json.parse_members (S (S (S (S (S n))))) r1 with
                    | Some (ms, r2) =>
                        Some (Json.VObject (("ignore", v) :: ms), r2)
                    | None => None
                    end
                | None => None
                end)
    end.
    rewrite Hitems. reflexivity.
Qed.

Lemma read_plain_configuration p ig :
  Forall (fun e => Json.plain e = true) ig ->
  Json.plain p = true ->
  Json.read (pyre_configuration p ig) = Some (intended_configuration p ig).
Proof.
  intros Hig Hp. unfold Json.read.
  rewrite (lex_configuration_of_plain p ig Hig Hp).
  rewrite parse_intended; [reflexivity|].
  rewrite intended_tokens, !length_app. cbn [List.length].
  pose proof (separated_strings_length ig). lia.
Qed.

(** An entry with double quotes in it adds a field of its own. *)
Example quoted_entry_adds_a_field :
  Json.read (pyre_configuration "/proj" [sample_injection])
  = Some injected_configuration.
Proof. vm_compute. reflexivity. Qed.

(** A backslash in the target path leaves a text that is not a document. *)
Example backslash_in_path_is_not_read :
  Json.read (pyre_configuration sample_backslash_path []) = None.
Proof. vm_compute. reflexivity. Qed.

(** * The claims *)


(** C2: for a request that passes validation and names at least one tool,
    the dictionary of results has exactly one entry per selected tool, in
    the order flake8, pylint, pyre-check; its keys are the valid names that
    occur in [--dependencies] and no others; the report is one section per
    entry; no program is launched twice; and a [--dependencies] list with
    the same members in another order or multiplicity gives the same run. *)
Theorem one_section_per_selected_tool_in_canonical_order env args :
  validated env args ->
  dependencies args <> [] ->
  exists results,
    result (dispatch env args) = Return results /\
    Py.keys results =
      filter (fun name => Py.contains name (dependencies args))
        ["flake8"; "pylint"; "pyre-check"] /\
    Py.keys results <> [] /\
    NoDup (Py.keys results) /\
    (forall name, In name (Py.keys results) <-> In name (dependencies args)) /\
    main env args =
      ((trace (dispatch env args)
         ++ trace (deliver env args (flatten (map section results))))%list,
       result (deliver env args (flatten (map section results)))) /\
    NoDup (map binary (invocations (trace (main env args)))) /\
    (forall e, In e (invocations (trace (main env args))) ->
       exists t, In (tool_name t) (dependencies args) /\
                 binary e = tool_binary t) /\
    (forall deps',
       (forall d, In d (dependencies args) <-> In d deps') ->
       main env (with_dependencies args deps') = main env args).
Proof.
  intros Hv Hne.
  exists (map (tool_entry env args) (selected (dependencies args))).
  assert (Hkeys : Py.keys (map (tool_entry env args)
                             (selected (dependencies args)))
                  = map tool_name (selected (dependencies args))).
  { unfold Py.keys. rewrite map_map. reflexivity. }
  assert (Hmem : forall name,
             In name (map tool_name (selected (dependencies args)))
             <-> In name (dependencies args)).
  { intros name. rewrite in_map_iff. split.
    - intros [t [<- Ht]]. now apply selected_In.
    - intros Hin. destruct Hv as [_ Hvalid].
      destruct (valid_name_is_tool name (Hvalid name Hin)) as [t ->].
      exists t. split; [reflexivity | now apply selected_In]. }
  split; [now rewrite dispatch_eq|].
  split; [rewrite Hkeys; apply selected_names|].
  split.
  { rewrite Hkeys. destruct (dependencies args) as [|d r] eqn:E;
      [congruence|].
    intros Hnil. assert (Hd : In d (map tool_name (selected (d :: r))))
      by (apply Hmem; now left).
    rewrite Hnil in Hd. destruct Hd. }
  split.
  { rewrite Hkeys. apply NoDup_map_injective.
    - intros a b. apply tool_name_inj.
    - apply NoDup_selected. }
  split; [intros name; rewrite Hkeys; apply Hmem|].
  split.
  { rewrite (main_validated env args Hv), dispatch_eq. cbn [trace fst].
    unfold report. now rewrite render_sections. }
  split.
  { rewrite (invocations_main env args Hv).
    assert (Hb : forall l,
               map binary (flat_map (tool_invocation env args) l)
               = map tool_binary
                   (filter (fun t => match tool_invocation env args t with
                                     | [] => false | _ => true end) l)).
    { induction l as [|t l IH]; [reflexivity|].
      cbn [flat_map filter]. rewrite map_app, IH.
      destruct t; cbn [tool_invocation].
      - unfold flake8_command. destruct (ignore args); reflexivity.
      - unfold pylint_command. destruct (ignore args); reflexivity.
      - destruct (mkdtemp env) as [e|d]; [reflexivity|].
        destruct (write_file env _ _); reflexivity. }
    rewrite Hb. apply NoDup_map_injective.
    - intros a b. destruct a, b; cbn; intros H; congruence || discriminate.
    - apply NoDup_filter, NoDup_selected. }
  split.
  { intros e. rewrite (invocations_main env args Hv), in_flat_map.
    intros [t [Ht He]]. exists t. split; [now apply selected_In|].
    destruct t; cbn [tool_invocation] in He.
    - destruct He as [<-|[]]. unfold flake8_command.
      destruct (ignore args); reflexivity.
    - destruct He as [<-|[]]. unfold pylint_command.
      destruct (ignore args); reflexivity.
    - destruct (mkdtemp env) as [x|d]; [destruct He|].
      destruct (write_file env _ _); [destruct He|].
      destruct He as [<-|[]]. reflexivity. }
  intros deps' Hsame. now apply main_with_dependencies.
Qed.

(** C3: when the body of a selected tool's runner fails at the level of
    execution (the program is missing, the process cannot be started, or
    for pyre the temporary directory or configuration file cannot be set
    up), the runner logs an error line that names the tool and returns the
    empty string; in a validated run the tool still has its entry and its
    section, with an empty body, and every selected tool is announced, has
    its child process asked for, and has its own captured text as its
    entry. *)
Theorem launch_failure_gives_empty_section_and_run_continues
    env args t e :
  attempt env args t = LaunchError e ->
  result (run_tool env args t) = Return "" /\
  (exists msg,
     In (Log ERROR msg) (trace (run_tool env args t)) /\
     mentions msg (tool_name t)) /\
  (validated env args ->
   In (tool_name t) (dependencies args) ->
   exists results,
     result (dispatch env args) = Return results /\
     result (main env args) = result (deliver env args (render results)) /\
     In (tool_name t, "") results /\
     (exists a b,
        render results =
        a ++ ("--- " ++ Py.upper (tool_name t) ++ " ---" ++ nl
                ++ "" ++ nl ++ nl) ++ b) /\
     forall t',
       In (tool_name t') (dependencies args) ->
       In (announce t') (trace (main env args)) /\
       incl (tool_invocation env args t') (trace (main env args)) /\
       In (tool_name t', captured (attempt env args t')) results /\
       forall p, attempt env args t' = Completed p ->
                 exists a b,
                   render results =
                   a ++ section (tool_name t', stdout p) ++ b).
Proof.
  intros Hfail. split; [|split].
  - rewrite run_tool_result, Hfail. reflexivity.
  - destruct (run_tool_trace env args t) as [pre [-> _]].
    rewrite Hfail.
    destruct (failure_message_mentions t e) as [msg [-> Hm]].
    exists msg. split; [|assumption].
    apply in_or_app. right. now left.
  - intros Hv Hsel.
    exists (map (tool_entry env args) (selected (dependencies args))).
    split; [now rewrite dispatch_eq|].
    split; [now rewrite (main_validated env args Hv)|].
    assert (Hentry : forall t', In (tool_name t') (dependencies args) ->
              In (tool_entry env args t')
                 (map (tool_entry env args) (selected (dependencies args)))).
    { intros t' Ht'. apply in_map. now apply selected_In. }
    split.
    { specialize (Hentry t Hsel). unfold tool_entry in Hentry at 1.
      now rewrite Hfail in Hentry. }
    split.
    { destruct (report_has_section env args t Hsel) as [a [b Hab]].
      exists a, b. unfold report in Hab. rewrite Hab.
      unfold tool_entry, section. cbn [fst snd]. now rewrite Hfail. }
    intros t' Ht'.
    destruct (announced_in_main env args t' Hv Ht') as [Ha Hi].
    split; [exact Ha|]. split; [exact Hi|].
    split; [exact (Hentry t' Ht')|].
    intros p Hp. destruct (report_has_section env args t' Ht') as [a [b Hab]].
    exists a, b. unfold report in Hab. rewrite Hab.
    unfold tool_entry. now rewrite Hp.
Qed.

(** C4: the flake8 command is [flake8, target]; the pylint command is
    [pylint, target]; for a non-empty exclusion list, and only then, the
    two arguments [--exclude v] (flake8) or [--ignore v] (pylint) follow,
    where [v] is the first entry followed by a comma and the next entry for
    each further entry, in the given order: N entries are joined by N-1
    commas and nothing follows the last entry.  These are the commands the
    runners pass to [subprocess.run]. *)
Theorem flake8_and_pylint_commands p ig :
  flake8_command p ig =
    match ig with
    | [] => ["flake8"; p]
    | _ :: _ => ["flake8"; p; "--exclude"; Py.join "," ig]
    end /\
  pylint_command p ig =
    match ig with
    | [] => ["pylint"; p]
    | _ :: _ => ["pylint"; p; "--ignore"; Py.join "," ig]
    end /\
  Py.join "," ig =
    match ig with
    | [] => ""
    | first :: more => first ++ flatten (map (fun x => "," ++ x) more)
    end /\
  String.length (Py.join "," ig) =
    list_sum (map String.length ig) + (List.length ig - 1) /\
  (forall env,
     invocations (trace (run_flake8 env p ig)) =
       [Subprocess (flake8_command p ig) None] /\
     invocations (trace (run_pylint env p ig)) =
       [Subprocess (pylint_command p ig) None]).
Proof.
  assert (Hjoin : forall first more,
             Py.join "," (first :: more)
             = first ++ flatten (map (fun x => "," ++ x) more)).
  { intros first more. revert first.
    induction more as [|y r IH]; intros first.
    - cbn. now rewrite append_nil_r.
    - change (Py.join "," (first :: y :: r))
        with (first ++ "," ++ Py.join "," (y :: r)).
      rewrite IH. cbn [map flatten fold_right].
      fold (flatten (map (fun x => "," ++ x) r)).
      now rewrite <- !append_assoc. }
  assert (Hlen : forall a b, String.length (a ++ b)
                             = String.length a + String.length b).
  { intros a b. induction a as [|c a IH]; cbn; [reflexivity | now rewrite IH]. }
  split; [destruct ig; reflexivity|].
  split; [destruct ig; reflexivity|].
  split; [destruct ig as [|first more]; [reflexivity | apply Hjoin]|].
  split.
  { destruct ig as [|first more]; [reflexivity|]. rewrite Hjoin.
    cbn [map list_sum fold_right List.length]. rewrite Hlen.
    fold (list_sum (map String.length more)).
    assert (Hm : String.length (flatten (map (fun x => "," ++ x) more))
                 = list_sum (map String.length more) + List.length more).
    { clear. induction more as [|y r IH]; [reflexivity|].
      cbn [map flatten fold_right list_sum List.length].
      fold (flatten (map (fun x => "," ++ x) r)).
      fold (list_sum (map String.length r)).
      change (("," ++ y) ++ flatten (map (fun x => "," ++ x) r))
        with (String "," (y ++ flatten (map (fun x => "," ++ x) r))).
      cbn [String.length].
      assert (Hl : forall a b, String.length (a ++ b)
                               = String.length a + String.length b).
      { intros a b. induction a as [|c a IHa]; cbn;
          [reflexivity | now rewrite IHa]. }
      rewrite Hl, IH. lia. }
    rewrite Hm. lia. }
  intros env. split.
  - rewrite run_flake8_eq. unfold invocations. cbn.
    now rewrite handler_log_no_subprocess.
  - rewrite run_pylint_eq. unfold invocations. cbn.
    now rewrite handler_log_no_subprocess.
Qed.

(** C5 (amended): [run_pyre] asks for at most one child process, and that
    one is [pyre check --source-directory target --configuration path],
    run in the target directory, where [path] is the configuration file in
    the temporary directory: no argument comes from the exclusion list.
    The file is written before the child is started; its text is the frame
    of the four lines [ignore], [typeshed], [use_buck] and
    [source_directories] with each entry and the target path put between
    double quotes as they are, and for an empty exclusion list the
    [ignore] line holds the empty brackets.  When no entry and not the
    target path holds a double quote, a backslash or a control character,
    the file holds exactly the four fields: [ignore] the entries in order,
    [typeshed] null, [use_buck] false, [source_directories] the target
    path alone. *)
Theorem pyre_command_and_configuration_file env p ig :
  match mkdtemp env with
  | inl _ =>
      invocations (trace (run_pyre env p ig)) = [] /\
      filter is_file_written (trace (run_pyre env p ig)) = []
  | inr d =>
      let path := Py.os_path_join d ".pyre_configuration.local" in
      match write_file env path (pyre_configuration p ig) with
      | Some _ =>
          invocations (trace (run_pyre env p ig)) = [] /\
          filter is_file_written (trace (run_pyre env p ig)) = []
      | None =>
          exists tail,
            trace (run_pyre env p ig) =
              ([TempDirCreated d;
                FileWritten path (pyre_configuration p ig);
                Subprocess
                  ["pyre"; "check"; "--source-directory"; p;
                   "--configuration"; path] (Some p);
                TempDirRemoved d] ++ tail)%list /\
            invocations tail = [] /\
            filter is_file_written tail = []
      end
  end /\
  pyre_configuration p ig =
    "{" ++ nl ++
    Py.join ("," ++ nl)
      [field "ignore"
         ("[" ++ Py.join ", " (map (fun x => dq ++ x ++ dq) ig) ++ "]");
       field "typeshed" "null";
       field "use_buck" "false";
       field "source_directories" ("[" ++ dq ++ p ++ dq ++ "]")]
    ++ nl ++ "}" /\
  pyre_configuration p [] =
    "{" ++ nl ++
    "  " ++ dq ++ "ignore" ++ dq ++ ": []," ++ nl ++
    "  " ++ dq ++ "typeshed" ++ dq ++ ": null," ++ nl ++
    "  " ++ dq ++ "use_buck" ++ dq ++ ": false," ++ nl ++
    "  " ++ dq ++ "source_directories" ++ dq ++ ": ["
         ++ dq ++ p ++ dq ++ "]" ++ nl ++
    "}" /\
  (Forall (fun e => Json.plain e = true) ig ->
   Json.plain p = true ->
   Json.read (pyre_configuration p ig) =
   Some (Json.VObject
           [("ignore", Json.VArray (map Json.VString ig));
            ("typeshed", Json.VNull);
            ("use_buck", Json.VBool false);
            ("source_directories", Json.VArray [Json.VString p])])).
Proof.
  split; [|split; [|split]].
  - pose proof (run_pyre_eq env (pyre_request p ig)) as H.
    cbn [pyre_request project_path ignore] in H. rewrite H. clear H.
    cbn [trace fst]. unfold pyre_body_trace, attempt, pyre_config_path.
    cbn [pyre_request project_path ignore].
    destruct (mkdtemp env) as [e|d].
    + cbn [app]. unfold invocations.
      destruct e; split; reflexivity.
    + cbv zeta. destruct (write_file env _ _) as [e|].
      * unfold invocations. destruct e; split; reflexivity.
      * eexists. split; [reflexivity|].
        unfold invocations.
        destruct (spawn env _ _) as [cp|[m|m]]; split; reflexivity.
  - unfold pyre_configuration, field, Py.join. cbn [String.concat].
    rewrite !append_assoc. reflexivity.
  - reflexivity.
  - apply read_plain_configuration.
Qed.

(** C5 as it was stated fails: for the entry [a"], "strict": ["b] the file
    holds five fields, [ignore] holds [a] alone, and a field [strict]
    that nobody asked for is there. *)
Lemma quoted_entry_breaks_the_four_fields :
  Json.read (pyre_configuration "/proj" [sample_injection])
  = Some
      (Json.VObject
         [("ignore", Json.VArray [Json.VString "a"]);
          ("strict", Json.VArray [Json.VString "b"]);
          ("typeshed", Json.VNull);
          ("use_buck", Json.VBool false);
          ("source_directories", Json.VArray [Json.VString "/proj"])]) /\
  Json.read (pyre_configuration "/proj" [sample_injection])
  <> Some (intended_configuration "/proj" [sample_injection]).
Proof.
  split; [vm_compute; reflexivity|].
  intros H. vm_compute in H. discriminate H.
Qed.

(** C6: when a tool's child process has run, whatever its exit code (a
    non-zero one included), the runner returns the text the child wrote to
    standard output and logs no error; in a validated run that text is the
    body of the tool's section, unchanged; and two systems that differ only
    in the exit codes of the children give the same run, report included. *)
Theorem exit_code_of_child_is_ignored env args t p :
  attempt env args t = Completed p ->
  result (run_tool env args t) = Return (stdout p) /\
  (forall msg, ~ In (Log ERROR msg) (trace (run_tool env args t))) /\
  (validated env args ->
   In (tool_name t) (dependencies args) ->
   exists results,
     result (dispatch env args) = Return results /\
     In (tool_name t, stdout p) results /\
     exists a b,
       render results =
       a ++ ("--- " ++ Py.upper (tool_name t) ++ " ---" ++ nl
               ++ stdout p ++ nl ++ nl) ++ b) /\
  (forall env', same_up_to_status env env' -> main env' args = main env args).
Proof.
  intros Hok. split; [|split; [|split]].
  - rewrite run_tool_result, Hok. reflexivity.
  - intros msg. destruct (run_tool_trace env args t) as [pre [-> Hpre]].
    rewrite Hok. cbn [handler_log]. rewrite app_nil_r. apply Hpre.
  - intros Hv Hsel.
    exists (map (tool_entry env args) (selected (dependencies args))).
    split; [now rewrite dispatch_eq|]. split.
    + assert (H : In (tool_entry env args t)
                    (map (tool_entry env args) (selected (dependencies args))))
        by (apply in_map; now apply selected_In).
      unfold tool_entry in H at 1. now rewrite Hok in H.
    + destruct (report_has_section env args t Hsel) as [a [b Hab]].
      exists a, b. unfold report in Hab. rewrite Hab.
      unfold tool_entry, section. cbn [fst snd]. now rewrite Hok.
  - intros env'. apply main_same_up_to_status.
Qed.

(** C7: the rendered report is the concatenation, in the order of the
    entries, of one section per entry, each being three dashes, a space,
    the tool name in upper case, a space, three dashes, a newline, the
    captured text and two newlines; the headers of the three tools are
    FLAKE8, PYLINT and PYRE-CHECK; the entries [main] renders are keyed by
    names that were requested, so an unselected tool has no section. *)
Theorem report_is_the_concatenation_of_sections :
  (forall results,
     render results =
     flatten (map (fun item =>
                     "--- " ++ Py.upper (fst item) ++ " ---" ++ nl
                       ++ snd item ++ nl ++ nl) results)) /\
  Py.upper "flake8" = "FLAKE8" /\
  Py.upper "pylint" = "PYLINT" /\
  Py.upper "pyre-check" = "PYRE-CHECK" /\
  (forall env args,
     exists results,
       result (dispatch env args) = Return results /\
       (forall name, In name (Py.keys results) ->
                     In name (dependencies args)) /\
       (validated env args ->
        trace (main env args) =
          (trace (dispatch env args)
             ++ trace (deliver env args (render results)))%list)).
Proof.
  split; [exact render_sections|].
  split; [reflexivity|]. split; [reflexivity|]. split; [reflexivity|].
  intros env args.
  exists (map (tool_entry env args) (selected (dependencies args))).
  split; [now rewrite dispatch_eq|]. split.
  - intros name. unfold Py.keys. rewrite map_map, in_map_iff.
    intros [t [<- Ht]]. now apply selected_In.
  - intros Hv. rewrite (main_validated env args Hv), dispatch_eq.
    reflexivity.
Qed.





(** C9 (amended): the configuration text is the fixed frame with every exclusion
    entry put between two double quotes as it is, and the target path put
    between two double quotes as it is; nothing is escaped.  Hence the
    text is read back as the configuration that was meant (the object with
    the four fields, [ignore] holding these entries and
    [source_directories] this path) only when no entry and not the target
    path holds a double quote or a backslash. *)
Theorem configuration_text_is_unescaped_interpolation p ig :
  pyre_configuration p ig =
    ("{" ++ nl ++ "  " ++ dq ++ "ignore" ++ dq ++ ": [")
    ++ Py.join ", " (map (fun x => dq ++ x ++ dq) ig)
    ++ ("]," ++ nl ++
        "  " ++ dq ++ "typeshed" ++ dq ++ ": null," ++ nl ++
        "  " ++ dq ++ "use_buck" ++ dq ++ ": false," ++ nl ++
        "  " ++ dq ++ "source_directories" ++ dq ++ ": [" ++ dq)
    ++ p
    ++ (dq ++ "]" ++ nl ++ "}") /\
  (Json.read (pyre_configuration p ig) = Some (intended_configuration p ig) ->
   (forall e, In e ig ->
      has_char DQUOTE e = false /\ has_char BACKSLASH e = false) /\
   has_char DQUOTE p = false /\ has_char BACKSLASH p = false).
Proof.
  split.
  - unfold pyre_configuration. rewrite !append_assoc. reflexivity.
  - intros H. apply read_tokens in H. apply lex_configuration_plain in H.
    destruct H as [Hig Hp]. split.
    + intros e He. rewrite Forall_forall in Hig.
      apply plain_no_quote_no_backslash. now apply Hig.
    + now apply plain_no_quote_no_backslash.
Qed.

(** C9 as it was stated fails: a text can be a well-formed document
    although an entry holds a double quote or a backslash.  The entry
    [a"], "strict": ["b] and the entry [a\\b] both give a document that
    is read, but not as the configuration that was meant. *)
Lemma document_with_quote_or_backslash_can_be_well_formed :
  has_char DQUOTE sample_injection = true /\
  (exists v, Json.read (pyre_configuration "/proj" [sample_injection])
             = Some v) /\
  has_char BACKSLASH sample_escaped_backslash = true /\
  (exists v, Json.read (pyre_configuration "/proj" [sample_escaped_backslash])
             = Some v) /\
  Json.read (pyre_configuration "/proj" [sample_escaped_backslash])
  <> Some (intended_configuration "/proj" [sample_escaped_backslash]).
Proof.
  split; [reflexivity|].
  split; [eexists; vm_compute; reflexivity|].
  split; [reflexivity|].
  split; [eexists; vm_compute; reflexivity|].
  intros H. vm_compute in H. discriminate H.
Qed.

(** ** The statements at sample inputs *)


Lemma sample_args_validated : validated sample_env sample_args.
Proof.
  split; [reflexivity|]. cbn.
  intros dep [<-|[<-|[<-|[<-|[]]]]]; auto.
Defined.


Lemma one_section_per_selected_tool_in_canonical_order_witness :
  exists results,
    result (dispatch sample_env sample_args) = Return results /\
    Py.keys results = ["flake8"; "pylint"; "pyre-check"].
Proof.
  destruct (one_section_per_selected_tool_in_canonical_order
              sample_env sample_args sample_args_validated)
    as [results [Hd [Hk _]]].
  - cbn. discriminate.
  - exists results. split; [exact Hd | exact Hk].
Defined.

Lemma launch_failure_gives_empty_section_and_run_continues_witness :
  result (run_tool sample_env sample_args Pylint) = Return "" /\
  exists results,
    result (dispatch sample_env sample_args) = Return results /\
    In ("pylint", "") results /\
    In ("pyre-check", "No type errors found") results.
Proof.
  destruct (launch_failure_gives_empty_section_and_run_continues
              sample_env sample_args Pylint (FileNotFoundError "pylint")
              eq_refl) as [Hr [_ Hm]].
  split; [exact Hr|].
  destruct (Hm sample_args_validated) as [results (Hd & _ & He & _ & Hall)].
  - cbn. right. right. left. reflexivity.
  - exists results. split; [exact Hd|]. split; [exact He|].
    refine (proj1 (proj2 (proj2 (Hall PyreCheck _)))).
    cbn. left. reflexivity.
Defined.

Lemma exit_code_of_child_is_ignored_witness :
  returncode {| returncode := 1; stdout := "a.py:1:1: F401" ++ nl;
                stderr := "" |} = 1%Z /\
  result (run_tool sample_env sample_args Flake8)
  = Return ("a.py:1:1: F401" ++ nl).
Proof.
  split; [reflexivity|].
  exact (proj1 (exit_code_of_child_is_ignored sample_env sample_args Flake8
                  {| returncode := 1; stdout := "a.py:1:1: F401" ++ nl;
                     stderr := "" |} eq_refl)).
Defined.

Lemma report_is_the_concatenation_of_sections_witness :
  render [("flake8", "ok"); ("pylint", "")] =
  "--- FLAKE8 ---" ++ nl ++ "ok" ++ nl ++ nl ++
  "--- PYLINT ---" ++ nl ++ "" ++ nl ++ nl.
Proof.
  rewrite (proj1 report_is_the_concatenation_of_sections). reflexivity.
Defined.



Lemma pyre_command_and_configuration_file_witness :
  Forall (fun e => Json.plain e = true) ["build"; "dist"] /\
  Json.plain "/proj" = true /\
  Json.read (pyre_configuration "/proj" ["build"; "dist"]) =
  Some (Json.VObject
          [("ignore", Json.VArray [Json.VString "build"; Json.VString "dist"]);
           ("typeshed", Json.VNull);
           ("use_buck", Json.VBool false);
           ("source_directories", Json.VArray [Json.VString "/proj"])]).
Proof.
  assert (Hig : Forall (fun e => Json.plain e = true) ["build"; "dist"])
    by (repeat constructor).
  split; [exact Hig|]. split; [reflexivity|].
  exact (proj2 (proj2 (proj2 (pyre_command_and_configuration_file
                                sample_env "/proj" ["build"; "dist"])))
           Hig eq_refl).
Defined.

Lemma configuration_text_is_unescaped_interpolation_witness :
  Json.read (pyre_configuration "/proj" ["build"; "dist"])
  = Some (intended_configuration "/proj" ["build"; "dist"]) /\
  (forall e, In e ["build"; "dist"] ->
     has_char DQUOTE e = false /\ has_char BACKSLASH e = false) /\
  has_char DQUOTE "/proj" = false /\ has_char BACKSLASH "/proj" = false.
Proof.
  split; [vm_compute; reflexivity|].
  apply (proj2 (configuration_text_is_unescaped_interpolation
                  "/proj" ["build"; "dist"])).
  vm_compute. reflexivity.
Defined.

(** * Further properties of the program *)

Lemma validated_dec env args : validated env args \/ ~ validated env args.
Proof.
  unfold validated.
  destruct (isdir env (project_path args)); [|right; intros [H _]; discriminate].
  destruct (forallb (fun d => Py.contains d valid_dependencies)
              (dependencies args)) eqn:E.
  - left. split; [reflexivity|]. intros dep Hd.
    rewrite forallb_forall in E. now apply contains_In, E.
  - right. intros [_ H].
    assert (Hall : forallb (fun d => Py.contains d valid_dependencies)
                     (dependencies args) = true).
    { apply forallb_forall. intros d Hd. now apply contains_In, H. }
    congruence.
Qed.

Lemma not_validated env args :
  ~ validated env args ->
  isdir env (project_path args) = false \/
  (exists dep, In dep (dependencies args) /\ ~ In dep valid_dependencies).
Proof.
  intros Hn. destruct (isdir env (project_path args)) eqn:Hdir;
    [right | now left].
  destruct (forallb (fun d => Py.contains d valid_dependencies)
              (dependencies args)) eqn:E.
  - exfalso. apply Hn. split; [exact Hdir|]. intros dep Hd.
    rewrite forallb_forall in E. now apply contains_In, E.
  - assert (Hex : exists d, In d (dependencies args) /\
                    Py.contains d valid_dependencies = false).
    { clear -E. induction (dependencies args) as [|d r IH];
        [discriminate|].
      cbn [forallb] in E. destruct (Py.contains d valid_dependencies) eqn:Hd.
      - cbn [andb] in E.
        destruct (IH E) as [x [Hx Hc]]. exists x. split; [now right | exact Hc].
      - exists d. split; [now left | exact Hd]. }
    destruct Hex as [d [Hd Hc]]. exists d. split; [exact Hd|].
    now apply contains_false.
Qed.


(** X2: validation reports the first thing that is wrong and nothing
    else.  A target that is not a directory is reported whatever the tool
    names are; otherwise the first invalid name of [--dependencies], in the
    order given, is the one named in the single error line. *)
Theorem validation_reports_first_failure env args :
  (isdir env (project_path args) = false ->
   main env args =
   ([Log ERROR ("Error: '" ++ project_path args
                  ++ "' is not a valid directory.")],
    SysExit 1%Z)) /\
  (forall good dep rest,
     isdir env (project_path args) = true ->
     dependencies args = (good ++ dep :: rest)%list ->
     (forall d, In d good -> In d valid_dependencies) ->
     ~ In dep valid_dependencies ->
     main env args =
     ([Log ERROR ("Error: '" ++ dep ++ "' is not a valid dependency. "
                    ++ "Valid options are: ['flake8', 'pylint', 'pyre-check']")],
      SysExit 1%Z)).
Proof.
  split.
  - intros Hdir. unfold main, validate. rewrite Hdir. reflexivity.
  - intros good dep rest Hdir Hdeps Hgood Hbad.
    assert (Hc : check_dependencies (good ++ dep :: rest) =
                 ([Log ERROR
                     ("Error: '" ++ dep ++ "' is not a valid dependency. "
                      ++ "Valid options are: ['flake8', 'pylint', 'pyre-check']")],
                  SysExit 1%Z)).
    { clear Hdeps. induction good as [|g good IH].
      - cbn [app check_dependencies].
        apply contains_false in Hbad. rewrite Hbad. reflexivity.
      - cbn [app check_dependencies].
        assert (Hg : Py.contains g valid_dependencies = true)
          by (apply contains_In, Hgood; now left).
        rewrite Hg. cbn [negb]. apply IH. intros d Hd. apply Hgood. now right. }
    unfold main, validate. rewrite Hdir, Hdeps. cbn [negb].
    rewrite (bind_trace_result _ _ [] tt eq_refl). cbn [app].
    rewrite Hc. reflexivity.
Qed.

(** X3: whatever the request, the child processes [main] asks for are,
    in this order, some of flake8, pylint and pyre, each at most once:
    tools run one after the other in the fixed order and no other program
    is ever started. *)
Theorem main_starts_tools_in_fixed_order env args :
  exists keep : string -> bool,
    map binary (invocations (trace (main env args)))
    = filter keep ["flake8"; "pylint"; "pyre"].
Proof.
  destruct (validated_dec env args) as [Hv|Hn].
  - rewrite (invocations_main env args Hv).
    assert (Hb : forall t,
               map binary (tool_invocation env args t) = [tool_binary t] \/
               map binary (tool_invocation env args t) = []).
    { intros t. destruct t; cbn [tool_invocation].
      - left. unfold flake8_command. destruct (ignore args); reflexivity.
      - left. unfold pylint_command. destruct (ignore args); reflexivity.
      - destruct (mkdtemp env) as [e|d]; [now right|].
        destruct (write_file env _ _); [now right | now left]. }
    unfold selected, canonical. cbn [filter tool_name].
    destruct (Py.contains "flake8" (dependencies args));
      destruct (Py.contains "pylint" (dependencies args));
      destruct (Py.contains "pyre-check" (dependencies args));
      cbn [flat_map app]; rewrite ?app_nil_r, ?map_app;
      repeat match goal with
        | |- context [map binary (tool_invocation env args ?t)] =>
            destruct (Hb t) as [-> | ->]
        end; cbn [app tool_binary map].
    all: first
      [ exists (fun _ => false); reflexivity
      | exists (fun b => String.eqb b "flake8"); reflexivity
      | exists (fun b => String.eqb b "pylint"); reflexivity
      | exists (fun b => String.eqb b "pyre"); reflexivity
      | exists (fun b => negb (String.eqb b "pyre")); reflexivity
      | exists (fun b => negb (String.eqb b "pylint")); reflexivity
      | exists (fun b => negb (String.eqb b "flake8")); reflexivity
      | exists (fun _ => true); reflexivity ].
  - destruct (main_rejected env args (not_validated env args Hn)) as [msg ->].
    exists (fun _ => false). reflexivity.
Qed.

Lemma handler_log_only_logs a b l ev :
  In ev (handler_log a b l) -> exists msg, ev = Log ERROR msg.
Proof.
  destruct l as [cp|[m|m]]; cbn; intros H; try contradiction;
    destruct H as [<-|[]]; eexists; reflexivity.
Qed.

Lemma file_written_by_run_tool env args t path content :
  In (FileWritten path content) (trace (run_tool env args t)) ->
  t = PyreCheck /\
  exists d,
    mkdtemp env = inr d /\
    path = Py.os_path_join d ".pyre_configuration.local" /\
    content = pyre_configuration (project_path args) (ignore args).
Proof.
  destruct t; cbn [run_tool].
  - rewrite run_flake8_eq. cbn [trace fst]. intros [H|H]; [discriminate|].
    apply handler_log_only_logs in H. destruct H as [msg H]. discriminate.
  - rewrite run_pylint_eq. cbn [trace fst]. intros [H|H]; [discriminate|].
    apply handler_log_only_logs in H. destruct H as [msg H]. discriminate.
  - rewrite run_pyre_eq. cbn [trace fst]. intros H. split; [reflexivity|].
    apply in_app_or in H. destruct H as [H|H].
    + unfold pyre_body_trace in H.
      destruct (mkdtemp env) as [e|d]; [destruct H|].
      exists d. split; [reflexivity|].
      destruct (write_file env _ _).
      * cbn in H. destruct H as [H|[H|[]]]; discriminate.
      * cbn in H. destruct H as [H|[H|[H|[H|[]]]]]; try discriminate.
        injection H as <- <-. now split.
    + apply handler_log_only_logs in H. destruct H as [msg H]. discriminate.
Qed.

(** X4: the only files [main] ever writes are the pyre configuration in
    the temporary directory it created, holding the generated text, and
    the output file that was asked for, holding the report; nothing in the
    target directory is written. *)
Theorem main_writes_only_configuration_and_report env args path content :
  In (FileWritten path content) (trace (main env args)) ->
  (In "pyre-check" (dependencies args) /\
   exists d,
     mkdtemp env = inr d /\
     path = Py.os_path_join d ".pyre_configuration.local" /\
     content = pyre_configuration (project_path args) (ignore args)) \/
  (output_file args = Some path /\ path <> "" /\
   exists results,
     result (dispatch env args) = Return results /\
     content = render results).
Proof.
  destruct (validated_dec env args) as [Hv|Hn].
  - rewrite (main_validated env args Hv). cbn [trace fst]. intros H.
    apply in_app_or in H. destruct H as [H|H].
    + left. apply in_flat_map in H. destruct H as [t [Ht H]].
      unfold tool_events in H. destruct H as [H|H]; [discriminate|].
      destruct (file_written_by_run_tool _ _ _ _ _ H) as [-> Hd].
      split; [|exact Hd]. now apply (selected_In _ PyreCheck).
    + right. rewrite deliver_trace in H. unfold delivery in H.
      destruct (output_file args) as [[|c f]|].
      * destruct (stdout_write env (report env args ++ nl));
          cbn in H; intuition discriminate.
      * destruct (write_file env (String c f) (report env args)).
        -- destruct H as [H|[]]. discriminate.
        -- destruct H as [H|[H|[]]]; [|discriminate].
           injection H as <- <-. split; [reflexivity|].
           split; [discriminate|].
           exists (map (tool_entry env args) (selected (dependencies args))).
           split; [now rewrite dispatch_eq | reflexivity].
      * destruct (stdout_write env (report env args ++ nl));
          cbn in H; intuition discriminate.
  - destruct (main_rejected env args (not_validated env args Hn)) as [msg ->].
    intros [H|[]]. discriminate.
Qed.

(** X5: [run_pyre] removes the temporary directory on every way out.
    When the directory could be created, the trace is: the creation, a
    body, the removal, and then at most log lines; the configuration file
    is written and the child process is started only inside the body, that
    is while the directory exists, also when the write or the launch
    fails.  When it could not be created nothing is created or removed. *)
Theorem temporary_directory_is_always_removed env p ig :
  match mkdtemp env with
  | inl _ => filter is_temp_dir_event (trace (run_pyre env p ig)) = []
  | inr d =>
      exists body logs,
        trace (run_pyre env p ig)
        = (TempDirCreated d :: body ++ TempDirRemoved d :: logs)%list /\
        filter is_temp_dir_event body = [] /\
        forallb is_log logs = true /\
        invocations (trace (run_pyre env p ig)) = invocations body /\
        filter is_file_written (trace (run_pyre env p ig))
        = filter is_file_written body
  end.
Proof.
  pose proof (run_pyre_eq env (pyre_request p ig)) as H.
  cbn [pyre_request project_path ignore] in H. rewrite H. clear H.
  cbn [trace fst]. unfold pyre_body_trace, attempt.
  cbn [pyre_request project_path ignore].
  destruct (mkdtemp env) as [e|d].
  - destruct e; reflexivity.
  - destruct (write_file env _ _) as [e|].
    + exists [], (handler_log (not_installed_message PyreCheck)
                   (failed_message PyreCheck) (LaunchError e)).
      unfold invocations. destruct e; repeat split; reflexivity.
    + eexists [_; _], _. split; [reflexivity|].
      unfold invocations.
      destruct (spawn env _ _) as [cp|[m|m]]; repeat split; reflexivity.
Qed.

Lemma same_stdout_observed a b l l' :
  same_stdout l l' ->
  handler_log a b l = handler_log a b l' /\ captured l = captured l'.
Proof.
  destruct l as [cp|e], l' as [cp'|e']; cbn; intros H; try contradiction.
  - now split.
  - subst. now split.
Qed.

Lemma attempt_same_children_output env env' args t :
  same_children_output env env' ->
  same_stdout (attempt env args t) (attempt env' args t).
Proof.
  intros (_ & Htmp & Hw & _ & Hs). destruct t; cbn [attempt]; try apply Hs.
  rewrite <- Htmp. destruct (mkdtemp env) as [e|d]; [reflexivity|].
  rewrite <- Hw. destruct (write_file env _ _); [reflexivity | apply Hs].
Qed.

Lemma run_tool_same_children_output env env' args t :
  same_children_output env env' ->
  run_tool env' args t = run_tool env args t.
Proof.
  intros H.
  pose proof (attempt_same_children_output env env' args t H) as Ha.
  destruct t; cbn [run_tool].
  - rewrite !run_flake8_eq. cbn [attempt] in Ha.
    destruct (same_stdout_observed (not_installed_message Flake8)
                (failed_message Flake8) _ _ Ha) as [-> ->]. reflexivity.
  - rewrite !run_pylint_eq. cbn [attempt] in Ha.
    destruct (same_stdout_observed (not_installed_message Pylint)
                (failed_message Pylint) _ _ Ha) as [-> ->]. reflexivity.
  - rewrite !run_pyre_eq.
    destruct (same_stdout_observed (not_installed_message PyreCheck)
                (failed_message PyreCheck) _ _ Ha) as [-> ->].
    destruct H as (_ & Htmp & Hw & _ & _). unfold pyre_body_trace.
    rewrite <- Htmp. destruct (mkdtemp env) as [e|d]; [reflexivity|].
    rewrite <- Hw. reflexivity.
Qed.

(** X6: the only thing [main] takes from a child process is the text on
    its standard output.  Two systems whose children print the same text
    there, whatever they write to standard error and whatever their exit
    codes, give the same run: the same log, the same report, the same exit
    status.  Standard error is dropped. *)
Theorem only_standard_output_of_children_is_used env env' args :
  same_children_output env env' ->
  main env' args = main env args.
Proof.
  intros H. unfold main.
  assert (Hval : validate env' args = validate env args).
  { unfold validate. destruct H as (Hdir & _). now rewrite Hdir. }
  assert (Hd : dispatch env' args = dispatch env args).
  { rewrite !dispatch_eq. f_equal.
    - apply flat_map_ext. intros t. unfold tool_events.
      now rewrite (run_tool_same_children_output env env' args t H).
    - f_equal. apply map_ext. intros t. unfold tool_entry.
      now destruct (same_stdout_observed "" ""  _ _
                      (attempt_same_children_output env env' args t H))
        as [_ ->]. }
  assert (Hdel : forall out, deliver env' args out = deliver env args out).
  { intros out. unfold deliver, open_write, print.
    destruct H as (_ & _ & Hw & Hout & _).
    destruct (output_file args) as [[|c f]|];
      try (rewrite Hout; reflexivity).
    now rewrite Hw. }
  rewrite Hval, Hd, dispatch_eq. f_equal.
  rewrite !(bind_trace_result _ _ _ _ eq_refl). now rewrite Hdel.
Qed.

(** X7: in [run_pyre] the handler for a missing program also catches a
    [FileNotFoundError] raised while the temporary directory or the
    configuration file is set up: pyre is then never started, the result
    is the empty string, and the log says that pyre-check is not
    installed. *)
Theorem pyre_setup_failure_is_reported_as_not_installed env p ig m :
  mkdtemp env = inl (FileNotFoundError m) \/
  (exists d,
     mkdtemp env = inr d /\
     write_file env (Py.os_path_join d ".pyre_configuration.local")
       (pyre_configuration p ig) = Some (FileNotFoundError m)) ->
  result (run_pyre env p ig) = Return "" /\
  invocations (trace (run_pyre env p ig)) = [] /\
  filter is_log (trace (run_pyre env p ig)) =
    [Log ERROR
       "Pyre-check is not installed. Please install it using 'pip install pyre-check'."].
Proof.
  intros H.
  pose proof (run_pyre_eq env (pyre_request p ig)) as E.
  cbn [pyre_request project_path ignore] in E. rewrite E. clear E.
  cbn [trace fst result snd]. unfold pyre_body_trace, attempt, invocations.
  cbn [pyre_request project_path ignore]. unfold pyre_config_path.
  destruct H as [-> | [d [-> ->]]]; repeat split; reflexivity.
Qed.

(** X8: an empty string given as [--output_file] counts as no output file:
    the run is the one without the option, delivery is the call of
    [print] and writes no file, and the report goes to standard output
    whenever standard output takes it. *)
Theorem empty_output_file_means_standard_output env args :
  main env (with_output_file args (Some "")) =
  main env (with_output_file args None) /\
  (forall out,
     deliver env (with_output_file args (Some "")) out = print env out /\
     filter is_file_written
       (trace (deliver env (with_output_file args (Some "")) out)) = []) /\
  (validated env args ->
   exists results,
     result (dispatch env args) = Return results /\
     (stdout_write env (render results ++ nl) = Written ->
      filter is_stdout (trace (main env (with_output_file args (Some ""))))
      = [Stdout (render results ++ nl)])).
Proof.
  split; [reflexivity|]. split.
  - intros out. split; [reflexivity|].
    unfold deliver, print. cbn [with_output_file output_file].
    destruct (stdout_write env (out ++ nl)); reflexivity.
  - intros Hv.
    assert (Hv' : validated env (with_output_file args (Some ""))) by exact Hv.
    exists (map (tool_entry env args) (selected (dependencies args))).
    split; [now rewrite dispatch_eq|].
    fold (report env args). intros Hw.
    rewrite (stdout_of_main env _ Hv').
    cbn [with_output_file output_file].
    change (report env (with_output_file args (Some "")))
      with (report env args).
    now rewrite Hw.
Qed.

(** X9: when [--dependencies] is absent the default applies: the request
    passes the check of the names; flake8 and then pylint are started
    with their commands, and then pyre with its command when its
    temporary directory and configuration file could be set up; the
    results hold, in this order, what each of the three printed (the empty
    string for one that could not be run); and the report is the three
    sections FLAKE8, PYLINT, PYRE-CHECK with these texts. *)
Theorem default_selection_runs_all_three env args :
  isdir env (project_path args) = true ->
  validated env
    (with_dependencies args (parsed_dependencies DependenciesAbsent)) /\
  invocations
    (trace (main env
              (with_dependencies args
                 (parsed_dependencies DependenciesAbsent))))
  = ([Subprocess (flake8_command (project_path args) (ignore args)) None;
      Subprocess (pylint_command (project_path args) (ignore args)) None]
     ++ match mkdtemp env with
        | inl _ => []
        | inr d =>
            match write_file env
                    (Py.os_path_join d ".pyre_configuration.local")
                    (pyre_configuration (project_path args) (ignore args))
            with
            | Some _ => []
            | None =>
                [Subprocess
                   (pyre_command (project_path args)
                      (Py.os_path_join d ".pyre_configuration.local"))
                   (Some (project_path args))]
            end
        end)%list /\
  exists r1 r2 r3,
    result (run_flake8 env (project_path args) (ignore args)) = Return r1 /\
    result (run_pylint env (project_path args) (ignore args)) = Return r2 /\
    result (run_pyre env (project_path args) (ignore args)) = Return r3 /\
    r1 = captured
           (spawn env (flake8_command (project_path args) (ignore args))
              None) /\
    r2 = captured
           (spawn env (pylint_command (project_path args) (ignore args))
              None) /\
    result (dispatch env
              (with_dependencies args (parsed_dependencies DependenciesAbsent)))
    = Return [("flake8", r1); ("pylint", r2); ("pyre-check", r3)] /\
    render [("flake8", r1); ("pylint", r2); ("pyre-check", r3)]
    = "--- FLAKE8 ---" ++ nl ++ r1 ++ nl ++ nl ++
      "--- PYLINT ---" ++ nl ++ r2 ++ nl ++ nl ++
      "--- PYRE-CHECK ---" ++ nl ++ r3 ++ nl ++ nl.
Proof.
  intros Hdir.
  assert (Hv : validated env
                 (with_dependencies args
                    (parsed_dependencies DependenciesAbsent))).
  { split; [exact Hdir|]. intros dep H. exact H. }
  split; [exact Hv|]. split.
  - rewrite (invocations_main env _ Hv). cbn.
    rewrite app_nil_r. reflexivity.
  - exists (captured (attempt env args Flake8)),
      (captured (attempt env args Pylint)),
      (captured (attempt env args PyreCheck)).
    split; [exact (run_tool_result env args Flake8)|].
    split; [exact (run_tool_result env args Pylint)|].
    split; [exact (run_tool_result env args PyreCheck)|].
    split; [reflexivity|]. split; [reflexivity|].
    split; [rewrite dispatch_eq; reflexivity|].
    rewrite render_sections. unfold section.
    cbn [map flatten fold_right fst snd].
    rewrite !append_assoc, append_nil_r. reflexivity.
Qed.

Lemma flatten_map_app (f : string -> string) l l' :
  flatten (map f (l ++ l')) = flatten (map f l) ++ flatten (map f l').
Proof. now rewrite map_app, flatten_app. Qed.

Lemma join_merges_comma a b l1 l2 :
  Py.join "," (l1 ++ (a ++ "," ++ b) :: l2)
  = Py.join "," (l1 ++ a :: b :: l2).
Proof.
  destruct l1 as [|x l1]; cbn [app]; rewrite !join_cons.
  - cbn [map flatten fold_right].
    fold (flatten (map (fun x => "," ++ x) l2)).
    now rewrite !append_assoc.
  - f_equal. rewrite !flatten_map_app. f_equal.
    cbn [map flatten fold_right].
    fold (flatten (map (fun x => "," ++ x) l2)).
    now rewrite !append_assoc.
Qed.

(** X10: a comma inside an exclusion entry is not told apart from the
    separator: an entry [a,b] gives flake8 and pylint the very command
    that the two entries [a] and [b] give. *)
Theorem comma_in_entry_is_a_separator p a b l1 l2 :
  flake8_command p (l1 ++ (a ++ "," ++ b) :: l2)
  = flake8_command p (l1 ++ a :: b :: l2) /\
  pylint_command p (l1 ++ (a ++ "," ++ b) :: l2)
  = pylint_command p (l1 ++ a :: b :: l2).
Proof.
  unfold flake8_command, pylint_command.
  rewrite join_merges_comma.
  destruct l1; split; reflexivity.
Qed.

Lemma comma_free_cons c e :
  comma_free (String c e) -> c <> ","%char /\ comma_free e.
Proof.
  unfold comma_free. cbn [has_char]. intros H.
  apply orb_false_iff in H. destruct H as [Hc He]. split; [|exact He].
  intros ->. discriminate.
Qed.

(** Splitting at the first comma: a comma-free head is determined. *)
Lemma comma_free_head_unique x :
  forall x' s s',
    comma_free x -> comma_free x' ->
    (s = "" \/ exists r, s = String "," r) ->
    (s' = "" \/ exists r, s' = String "," r) ->
    x ++ s = x' ++ s' -> x = x' /\ s = s'.
Proof.
  induction x as [|c x IH]; intros x' s s' Hx Hx' Hs Hs' H.
  - destruct x' as [|c' x']; [now split|]. cbn in H.
    apply comma_free_cons in Hx'. destruct Hx' as [Hc' _].
    destruct Hs as [-> | [r ->]]; [discriminate|].
    injection H as H _. congruence.
  - apply comma_free_cons in Hx. destruct Hx as [Hc Hx].
    destruct x' as [|c' x'].
    + cbn in H. destruct Hs' as [-> | [r ->]]; [discriminate|].
      injection H as H _. congruence.
    + apply comma_free_cons in Hx'. destruct Hx' as [_ Hx'].
      cbn in H. injection H as -> H.
      destruct (IH _ _ _ Hx Hx' Hs Hs' H) as [-> ->]. now split.
Qed.

Lemma tail_shape more :
  flatten (map (fun x => "," ++ x) more) = "" \/
  exists r, flatten (map (fun x => "," ++ x) more) = String "," r.
Proof.
  destruct more as [|y r]; [now left|]. right.
  cbn [map flatten fold_right]. eexists. reflexivity.
Qed.

Lemma tail_injective more :
  forall more',
    Forall comma_free more -> Forall comma_free more' ->
    flatten (map (fun x => "," ++ x) more)
    = flatten (map (fun x => "," ++ x) more') ->
    more = more'.
Proof.
  induction more as [|y r IH]; intros more' Hm Hm' H.
  - destruct more' as [|y' r']; [reflexivity | discriminate].
  - destruct more' as [|y' r']; [discriminate|].
    inversion Hm as [|? ? Hy Hr]; subst.
    inversion Hm' as [|? ? Hy' Hr']; subst.
    cbn [map flatten fold_right] in H.
    fold (flatten (map (fun x => "," ++ x) r)) in H.
    fold (flatten (map (fun x => "," ++ x) r')) in H.
    cbn [append] in H. injection H as H.
    destruct (comma_free_head_unique _ _ _ _ Hy Hy'
                (tail_shape r) (tail_shape r') H) as [-> Ht].
    f_equal. now apply IH.
Qed.

Lemma join_injective l l' :
  l <> [] -> l' <> [] ->
  Forall comma_free l -> Forall comma_free l' ->
  Py.join "," l = Py.join "," l' -> l = l'.
Proof.
  destruct l as [|x r]; [congruence|]. destruct l' as [|x' r']; [congruence|].
  intros _ _ Hl Hl'. rewrite !join_cons. intros H.
  inversion Hl as [|? ? Hx Hr]; subst.
  inversion Hl' as [|? ? Hx' Hr']; subst.
  destruct (comma_free_head_unique _ _ _ _ Hx Hx'
              (tail_shape r) (tail_shape r') H) as [-> Ht].
  f_equal. now apply tail_injective.
Qed.

(** X11: for exclusion entries without commas nothing is lost in the
    command line: the flake8 command, and likewise the pylint command,
    determines the target path and the exclusion list it was built from. *)
Theorem commands_determine_the_request p p' l l' :
  Forall comma_free l -> Forall comma_free l' ->
  (flake8_command p l = flake8_command p' l' -> p = p' /\ l = l') /\
  (pylint_command p l = pylint_command p' l' -> p = p' /\ l = l').
Proof.
  intros Hl Hl'. unfold flake8_command, pylint_command.
  destruct l as [|x r], l' as [|x' r']; cbn [Py.truthy_list app];
    split; intros H; try discriminate;
    try (injection H as ->; now split).
  - injection H as -> H. split; [reflexivity|].
    apply join_injective; try assumption; discriminate.
  - injection H as -> H. split; [reflexivity|].
    apply join_injective; try assumption; discriminate.
Qed.

(** X12: when every exclusion entry and the target path are made of
    plain characters (no double quote, no backslash, no control
    character), the text [run_pyre] writes is read back by a JSON reader
    as the object with the four fields [ignore] (these entries, in order),
    [typeshed] null, [use_buck] false and [source_directories] (this path
    alone). *)
Theorem plain_configuration_reads_back p ig :
  Forall (fun e => Json.plain e = true) ig ->
  Json.plain p = true ->
  Json.read (pyre_configuration p ig) = Some (intended_configuration p ig).
Proof.
  intros Hig Hp. unfold Json.read.
  rewrite (lex_configuration_of_plain p ig Hig Hp).
  rewrite parse_intended; [reflexivity|].
  rewrite intended_tokens, !length_app. cbn [List.length].
  pose proof (separated_strings_length ig). lia.
Qed.

(** X13: rendering goes entry by entry: the report of two lists of
    results put one after the other is the two reports put one after the
    other, and the report is empty only when there is no entry at all, so
    a selected tool always leaves at least its header. *)
Theorem render_composes :
  (forall a b : Py.dict, render (a ++ b)%list = render a ++ render b) /\
  (forall results, render results = "" <-> results = []).
Proof.
  split.
  - intros a b. rewrite !render_sections, map_app. apply flatten_app.
  - intros results. split.
    + destruct results as [|[tool out] r]; [reflexivity|].
      rewrite render_sections. cbn. discriminate.
    + intros ->. reflexivity.
Qed.

Lemma logs_of_run_tool env args t :
  filter is_log (trace (run_tool env args t)) =
  handler_log (not_installed_message t) (failed_message t)
    (attempt env args t).
Proof.
  assert (Hh : forall a b l, filter is_log (handler_log a b l)
                             = handler_log a b l).
  { intros a b l. destruct l as [cp|[m|m]]; reflexivity. }
  destruct t; cbn [run_tool].
  - rewrite run_flake8_eq. cbn [trace fst filter is_log]. apply Hh.
  - rewrite run_pylint_eq. cbn [trace fst filter is_log]. apply Hh.
  - rewrite run_pyre_eq. cbn [trace fst]. rewrite filter_app, Hh.
    unfold pyre_body_trace.
    destruct (mkdtemp env) as [e|d]; [reflexivity|].
    destruct (write_file env _ _); reflexivity.
Qed.

(** X14: the progress lines of the log follow the selection: the
    dispatcher logs one [Running ...] line for each requested valid tool,
    in the order flake8, pylint, pyre-check, and no other information
    line. *)
Theorem announcements_follow_the_selection env args :
  filter is_info (trace (dispatch env args)) =
  map (fun name => Log INFO ("Running " ++ name ++ "..."))
    (filter (fun name => Py.contains name (dependencies args))
       ["flake8"; "pylint"; "pyre-check"]).
Proof.
  rewrite dispatch_eq. cbn [trace fst].
  change ["flake8"; "pylint"; "pyre-check"] with valid_dependencies.
  rewrite <- selected_names, map_map, filter_flat_map.
  induction (selected (dependencies args)) as [|t l IH]; [reflexivity|].
  cbn [flat_map map]. rewrite IH. unfold tool_events.
  cbn [filter announce is_info].
  assert (Hn : filter is_info (trace (run_tool env args t)) = []).
  { assert (Hsub : forall l0, filter is_info l0
                              = filter is_info (filter is_log l0)).
    { induction l0 as [|e l0 IHl]; [reflexivity|].
      destruct e as [[|] m| | | | | |]; cbn; now rewrite ?IHl. }
    rewrite Hsub, logs_of_run_tool.
    destruct (attempt env args t) as [cp|[m|m]]; reflexivity. }
  rewrite Hn. reflexivity.
Qed.

(** X15: a runner logs exactly one line when its body fails and none when
    the child has run.  A missing file gives the fixed line that the tool
    is not installed; any other exception gives
    [An error occurred while running <tool>: ] followed by the text of the
    exception. *)
Theorem runner_logs_each_failure_once env args t :
  filter is_log (trace (run_tool env args t)) =
  match attempt env args t with
  | Completed _ => []
  | LaunchError (FileNotFoundError _) =>
      [Log ERROR
         match t with
         | Flake8 =>
             "Flake8 is not installed. Please install it using 'pip install flake8'."
         | Pylint =>
             "Pylint is not installed. Please install it using 'pip install pylint'."
         | PyreCheck =>
             "Pyre-check is not installed. Please install it using 'pip install pyre-check'."
         end]
  | LaunchError (OtherException m) =>
      [Log ERROR
         ("An error occurred while running " ++ tool_name t ++ ": " ++ m)]
  end.
Proof.
  rewrite logs_of_run_tool.
  destruct (attempt env args t) as [cp|[m|m]];
    [reflexivity | destruct t; reflexivity | destruct t; reflexivity].
Qed.

(** ** The further properties at sample inputs *)

Lemma validation_reports_first_failure_witness :
  main sample_env sample_bad_args =
  ([Log ERROR
      ("Error: 'mypy' is not a valid dependency. "
       ++ "Valid options are: ['flake8', 'pylint', 'pyre-check']")],
   SysExit 1%Z).
Proof.
  apply (proj2 (validation_reports_first_failure sample_env sample_bad_args)
           ["flake8"] "mypy" []).
  - reflexivity.
  - reflexivity.
  - intros d [<-|[]]. cbn. now left.
  - cbn. intros [H|[H|[H|[]]]]; discriminate H.
Defined.

Lemma main_writes_only_configuration_and_report_witness :
  In (FileWritten "/tmp/tmpk3/.pyre_configuration.local"
        (pyre_configuration "/proj" ["build"; "dist"]))
     (trace (main sample_env sample_args)) /\
  ((In "pyre-check" (dependencies sample_args) /\
    exists d,
      mkdtemp sample_env = inr d /\
      "/tmp/tmpk3/.pyre_configuration.local"
      = Py.os_path_join d ".pyre_configuration.local" /\
      pyre_configuration "/proj" ["build"; "dist"]
      = pyre_configuration (project_path sample_args) (ignore sample_args)) \/
   (output_file sample_args = Some "/tmp/tmpk3/.pyre_configuration.local" /\
    "/tmp/tmpk3/.pyre_configuration.local" <> "" /\
    exists results,
      result (dispatch sample_env sample_args) = Return results /\
      pyre_configuration "/proj" ["build"; "dist"] = render results)).
Proof.
  assert (H : In (FileWritten "/tmp/tmpk3/.pyre_configuration.local"
                    (pyre_configuration "/proj" ["build"; "dist"]))
                 (trace (main sample_env sample_args))).
  { vm_compute. do 7 right. left. reflexivity. }
  split; [exact H|].
  exact (main_writes_only_configuration_and_report sample_env sample_args
           _ _ H).
Defined.

Lemma sample_env_noisy_same : same_children_output sample_env sample_env_noisy.
Proof.
  repeat split. intros c d. unfold sample_env_noisy. cbn [spawn].
  destruct (spawn sample_env c d); reflexivity.
Defined.


Lemma only_standard_output_of_children_is_used_witness :
  main sample_env_noisy sample_args = main sample_env sample_args.
Proof.
  exact (only_standard_output_of_children_is_used sample_env sample_env_noisy
           sample_args sample_env_noisy_same).
Defined.

Lemma pyre_setup_failure_is_reported_as_not_installed_witness :
  result (run_pyre sample_env_no_tmp "/proj" []) = Return "" /\
  invocations (trace (run_pyre sample_env_no_tmp "/proj" [])) = [] /\
  filter is_log (trace (run_pyre sample_env_no_tmp "/proj" [])) =
    [Log ERROR
       "Pyre-check is not installed. Please install it using 'pip install pyre-check'."].
Proof.
  apply (pyre_setup_failure_is_reported_as_not_installed sample_env_no_tmp
           "/proj" [] "No usable temporary directory found").
  left. reflexivity.
Defined.

Lemma empty_output_file_means_standard_output_witness :
  exists text,
    filter is_stdout
      (trace (main sample_env (with_output_file sample_args (Some ""))))
    = [Stdout text].
Proof.
  destruct (proj2 (proj2 (empty_output_file_means_standard_output
                            sample_env sample_args)) sample_args_validated)
    as [results [_ H]].
  eexists. apply H. reflexivity.
Defined.

Lemma default_selection_runs_all_three_witness :
  map binary
    (invocations
       (trace (main sample_env
                 (with_dependencies sample_empty_args
                    (parsed_dependencies DependenciesAbsent)))))
  = ["flake8"; "pylint"; "pyre"].
Proof.
  rewrite (proj1 (proj2 (default_selection_runs_all_three sample_env
                           sample_empty_args eq_refl))).
  reflexivity.
Defined.

Lemma commands_determine_the_request_witness :
  flake8_command "/proj" ["build"; "dist"]
  = flake8_command "/proj" ["build"; "dist"] /\
  "/proj" = "/proj" /\ ["build"; "dist"] = ["build"; "dist"].
Proof.
  assert (Hl : Forall comma_free ["build"; "dist"]).
  { repeat constructor. }
  split; [reflexivity|].
  exact (proj1 (commands_determine_the_request "/proj" "/proj"
                  ["build"; "dist"] ["build"; "dist"] Hl Hl) eq_refl).
Defined.

Lemma plain_configuration_reads_back_witness :
  Json.read (pyre_configuration "/proj" ["build"; "dist"])
  = Some (intended_configuration "/proj" ["build"; "dist"]).
Proof.
  apply (plain_configuration_reads_back "/proj" ["build"; "dist"]).
  - repeat constructor.
  - reflexivity.
Defined.

Lemma render_composes_witness :
  render [("flake8", "ok")] <> "".
Proof.
  intros H. apply (proj1 (proj2 render_composes [("flake8", "ok")])) in H.
  discriminate H.
Defined.
